(** * MQ135 gas-sensor driver (MQ135.cpp): model and verified properties

    The driver is a C++ class with one mutable field ([_rzero]), two
    collaborators (the ADC through [analogRead], the scheduler through
    [vTaskDelay]) and a log.  Its methods are translated one by one into
    a state monad over a [machine]: the object, the number of ADC reads
    performed so far and the trace of observable events.

    The arithmetic of the source mixes C [float] and [double].  The
    translation is written once, against the interface [Arith], and read
    in two ways: with IEEE 754 binary32/binary64 (module [IEEE], on the
    Standard Library's [SpecFloat]), which is what the compiled code
    computes, and with the real numbers (module [Exact]), which is the
    algebra the formulas of the data sheet are meant in. *)

From Stdlib Require Import ZArith List Bool Lia Arith.
From Stdlib Require Import SpecFloat.
From Stdlib Require Import Reals Lra.
Import ListNotations.

Set Implicit Arguments.
Local Open Scope Z_scope.

(* ================================================================== *)
(** * The arithmetic interface *)
(* ================================================================== *)

(** [flt] is the C type [float], [dbl] the C type [double].  [f2d] is the
    implicit promotion, [d2f] the implicit conversion on assignment or
    return, [i2d] the conversion of an integer operand, and [dlit m k]
    the decimal literal [m * 10^-k] (of type [double], as every
    unsuffixed literal of the source).  [dpow] is the C library's [pow]. *)
Class Arith : Type := {
  flt : Type;
  dbl : Type;
  f2d : flt -> dbl;
  d2f : dbl -> flt;
  i2d : Z -> dbl;
  dlit : Z -> nat -> dbl;
  dadd : dbl -> dbl -> dbl;
  dsub : dbl -> dbl -> dbl;
  dmul : dbl -> dbl -> dbl;
  ddiv : dbl -> dbl -> dbl;
  dneg : dbl -> dbl;
  dpow : dbl -> dbl -> dbl;
  dlt : dbl -> dbl -> bool;
  fdiv : flt -> flt -> flt;
  fgt : flt -> flt -> bool;
  fle : flt -> flt -> bool;
  fge : flt -> flt -> bool
}.

Declare Scope dbl_scope.
Delimit Scope dbl_scope with D.
Infix "+" := dadd : dbl_scope.
Infix "-" := dsub : dbl_scope.
Infix "*" := dmul : dbl_scope.
Infix "/" := ddiv : dbl_scope.
Notation "- x" := (dneg x) : dbl_scope.

(** The macros of MQ135.h that the methods use.  The header is not part
    of the sources at hand; its constants are parameters of the model.
    They are unsuffixed literals, hence of type [double]. *)
Record header (A : Arith) : Type := {
  CORA : dbl;
  CORB : dbl;
  CORC : dbl;
  CORD : dbl;
  PARA : dbl;
  PARB : dbl;
  ATMOCO2 : dbl
}.

Arguments Build_header {A} & CORA CORB CORC CORD PARA PARB ATMOCO2.

(* ================================================================== *)
(** * The object, the machine and the monad *)
(* ================================================================== *)

(** The fields of [class MQ135]. *)
Record MQ135 (A : Arith) : Type := {
  _pin : Z;
  _rzero : flt
}.

Arguments Build_MQ135 {A} & _pin _rzero.

(** Observable events, one constructor per call that leaves the class:
    [analogRead], the [ESP_LOGI] of [getResistance], [vTaskDelay], and
    the [ESP_LOGI] / [ESP_LOGE] that end [calibrateRZero]. *)
Inductive event (A : Arith) : Type :=
| AnalogRead (pin : Z) (value : Z)
| LogResistance (val ref_val Rs : flt)
| TaskDelay (ticks : Z)
| LogCalibrated (it : Z) (rzero : flt)
| LogFailed (it : Z).

Arguments AnalogRead {A} pin value.
Arguments LogResistance {A} val ref_val Rs.
Arguments TaskDelay {A} ticks.
Arguments LogCalibrated {A} it rzero.
Arguments LogFailed {A} it.

(** [reads] counts the ADC conversions made so far; [trace] holds the
    events, the newest first. *)
Record machine (A : Arith) : Type := {
  self : MQ135 A;
  reads : nat;
  trace : list (event A)
}.

Arguments Build_machine {A} & self reads trace.

Definition M (A : Arith) (T : Type) : Type := machine A -> T * machine A.

Definition ret {A : Arith} {T : Type} (x : T) : M A T := fun m => (x, m).

Definition bind {A : Arith} {T U : Type} (c : M A T) (k : T -> M A U) : M A U :=
  fun m => let (x, m') := c m in k x m'.

Notation "x <- c ;; k" := (bind c (fun x => k))
  (at level 61, c at next level, right associativity).
Notation "c ;;; k" := (bind c (fun _ => k))
  (at level 61, right associativity).

Definition emit {A : Arith} (e : event A) : M A unit :=
  fun m => (tt, {| self := self m; reads := reads m; trace := e :: trace m |}).

Definition get_rzero {A : Arith} : M A flt :=
  fun m => (_rzero (self m), m).

Definition get_pin {A : Arith} : M A Z :=
  fun m => (_pin (self m), m).

Definition set_rzero {A : Arith} (r : flt) : M A unit :=
  fun m => (tt, {| self := {| _pin := _pin (self m); _rzero := r |};
                   reads := reads m; trace := trace m |}).

(** [MQ135::MQ135(uint8_t pin)] stores the pin.  The initial value of
    [_rzero] comes from the header and is a parameter here. *)
Definition MQ135_new {A : Arith} (pin : Z) (rzero0 : flt) : MQ135 A :=
  {| _pin := pin mod 256; _rzero := rzero0 |}.

(* ================================================================== *)
(** * The methods *)
(* ================================================================== *)

Section Driver.
Context {A : Arith}.

(** The hardware: [adc n pin] is what the converter holds on [pin] at
    the [n]-th read.  [analogRead] returns a [uint16_t]. *)
Variable adc : nat -> Z -> Z.
Variable H : header A.

Definition analogRead (pin : Z) : M A Z :=
  fun m =>
    let v := adc (reads m) pin mod 65536 in
    (v, {| self := self m; reads := S (reads m);
           trace := AnalogRead pin v :: trace m |}).

Definition vTaskDelay (ticks : Z) : M A unit := emit (TaskDelay ticks).

(** [return CORA * t * t - CORB * t + CORC - (h-33.)*CORD;] *)
Definition getCorrectionFactor (t h : flt) : M A flt :=
  ret (d2f (CORA H * f2d t * f2d t - CORB H * f2d t + CORC H
            - (f2d h - dlit 33 0) * CORD H)%D).

(** [float val = analogRead(_pin) * 2.450 / 4095.;]
    [float ref_val = analogRead(33) * 2.450 / 4095.;]
    [float Rs = 3. * ref_val * 10.0 / val - 2.;] *)
Definition getResistance : M A flt :=
  pin <- get_pin ;;
  raw <- analogRead pin ;;
  let val := d2f (i2d raw * dlit 2450 3 / dlit 4095 0)%D in
  raw_ref <- analogRead 33 ;;
  let ref_val := d2f (i2d raw_ref * dlit 2450 3 / dlit 4095 0)%D in
  let Rs := d2f (dlit 3 0 * f2d ref_val * dlit 100 1 / f2d val - dlit 2 0)%D in
  emit (LogResistance val ref_val Rs) ;;;
  ret Rs.

(** [return getResistance()/getCorrectionFactor(t, h);] *)
Definition getCorrectedResistance (t h : flt) : M A flt :=
  Rs <- getResistance ;;
  cf <- getCorrectionFactor t h ;;
  ret (fdiv Rs cf).

(** [return PARA * pow((getResistance()/_rzero), -PARB);] *)
Definition getPPM : M A flt :=
  Rs <- getResistance ;;
  rz <- get_rzero ;;
  ret (d2f (PARA H * dpow (f2d (fdiv Rs rz)) (- PARB H))%D).

(** [return PARA * pow((getCorrectedResistance(t, h)/_rzero), -PARB);] *)
Definition getCorrectedPPM (t h : flt) : M A flt :=
  Rs <- getCorrectedResistance t h ;;
  rz <- get_rzero ;;
  ret (d2f (PARA H * dpow (f2d (fdiv Rs rz)) (- PARB H))%D).

(** [return getResistance() * pow((ATMOCO2/PARA), (1./PARB));] *)
Definition getRZero : M A flt :=
  Rs <- getResistance ;;
  ret (d2f (f2d Rs * dpow (ATMOCO2 H / PARA H) (dlit 1 0 / PARB H))%D).

(** [return getCorrectedResistance(t, h) * pow((ATMOCO2/PARA), (1./PARB));] *)
Definition getCorrectedRZero (t h : flt) : M A flt :=
  Rs <- getCorrectedResistance t h ;;
  ret (d2f (f2d Rs * dpow (ATMOCO2 H / PARA H) (dlit 1 0 / PARB H))%D).

(** [_rzero += step;] with [_rzero] a [float] and [step] a [double]:
    the sum is formed in [double] and converted back. *)
Definition bump (step : dbl) (r : flt) : flt := d2f (f2d r + step)%D.

Definition add_rzero (step : dbl) : M A unit :=
  rz <- get_rzero ;;
  set_rzero (bump step rz).

(** The two [break] tests of the loop body. *)
Definition crossed (step : dbl) (measurement cal_ppm : flt) : bool :=
  if dlt step (i2d 0) then fle measurement cal_ppm
  else fge measurement cal_ppm.

(** [for (it = 0; it < 10000; it++) { ... }], from the state in which
    the loop test is about to be evaluated.  The result is the value of
    [it] when the loop is left.  [fuel] only makes the recursion
    structural; [calibrate_loop_fuel] shows that 10000 is enough.
    [it] is an [int] that stays within [0, 10000]. *)
Fixpoint calibrate_loop (fuel : nat) (cal_ppm t h : flt) (step : dbl)
         (it : Z) : M A Z :=
  match fuel with
  | O => ret it
  | S fuel' =>
      if it <? 10000 then
        add_rzero step ;;;
        measurement <- getCorrectedPPM t h ;;
        if crossed step measurement cal_ppm then ret it
        else
          (if Z.rem it 30 =? 0 then vTaskDelay 1 else ret tt) ;;;
          calibrate_loop fuel' cal_ppm t h step (it + 1)
      else ret it
  end.

(** [auto step = (measurement > cal_ppm) ? -.1 : +.1;] *)
Definition choose_step (measurement cal_ppm : flt) : dbl :=
  if fgt measurement cal_ppm then (- dlit 1 1)%D else dlit 1 1.

(** [bool MQ135::calibrateRZero(float cal_ppm, float t, float h)] *)
Definition calibrateRZero (cal_ppm t h : flt) : M A bool :=
  measurement <- getCorrectedPPM t h ;;
  let step := choose_step measurement cal_ppm in
  it <- calibrate_loop (Z.to_nat 10000) cal_ppm t h step 0 ;;
  if it <? 1000 then
    rz <- get_rzero ;;
    emit (LogCalibrated it rz) ;;;
    ret true
  else
    emit (LogFailed it) ;;;
    ret false.

End Driver.

(* ================================================================== *)
(** * IEEE 754 arithmetic: what the compiled driver computes *)
(* ================================================================== *)

Module IEEE.

(** binary32 ([float]) and binary64 ([double]) are both carried by
    [spec_float]; a value of either format is kept in the canonical
    form of that format. *)
Definition float : Type := spec_float.
Definition double : Type := spec_float.

Definition prec32 : Z := 24.
Definition emax32 : Z := 128.
Definition prec64 : Z := 53.
Definition emax64 : Z := 1024.

(** Rounding (to nearest, ties to even) of a value into a format. *)
Definition round_to (prec emax : Z) (x : spec_float) : spec_float :=
  match x with
  | S754_finite s m e => binary_normalize prec emax (cond_Zopp s (Zpos m)) e s
  | _ => x
  end.

Definition to_float (x : double) : float := round_to prec32 emax32 x.
Definition to_double (x : float) : double := round_to prec64 emax64 x.
Definition of_int (z : Z) : double := binary_normalize prec64 emax64 z 0 false.

(** A decimal literal [m * 10^-k] denotes the [double] nearest to it;
    with [m] and [10^k] below [2^53] that is their rounded quotient. *)
Definition literal (m : Z) (k : nat) : double :=
  SFdiv prec64 emax64 (of_int m) (of_int (10 ^ Z.of_nat k)).

Definition nan : spec_float := S754_nan.
Definition pinf : spec_float := S754_infinity false.
Definition ninf : spec_float := S754_infinity true.
Definition one : double := of_int 1.

Definition is_nan (x : spec_float) : bool :=
  match x with S754_nan => true | _ => false end.
Definition is_inf (x : spec_float) : bool :=
  match x with S754_infinity _ => true | _ => false end.
Definition is_finite (x : spec_float) : bool :=
  match x with S754_zero _ | S754_finite _ _ _ => true | _ => false end.
Definition is_pinf (x : spec_float) : bool :=
  match x with S754_infinity false => true | _ => false end.

End IEEE.

(* ================================================================== *)
(** * The C library's [pow] on [double] *)
(* ================================================================== *)

(** [pow] belongs to the C library, not to the driver.  The model below
    follows ISO C Annex F.10.4.4 for the special cases; for a finite
    positive base it evaluates [exp (y * ln x)] in fixed point with
    [fbits] fractional bits and rounds the result to nearest. *)
Module Libm.
Import IEEE.

Definition fbits : Z := 96.
Definition fone : Z := 2 ^ fbits.

(** [atanh z = z + z^3/3 + z^5/5 + ...] for a fixed-point [0 <= z <= 1/3]. *)
Fixpoint atanh_terms (n : nat) (k zk z2 acc : Z) : Z :=
  match n with
  | O => acc
  | S n' => atanh_terms n' (k + 2) (Z.shiftr (zk * z2) fbits) z2 (acc + zk / k)
  end.

Definition atanh_fix (z : Z) : Z :=
  atanh_terms 32 1 z (Z.shiftr (z * z) fbits) 0.

(** [ln t] for [t = a / b] with [b <= a <= 2 * b]. *)
Definition ln_ratio (a b : Z) : Z := 2 * atanh_fix ((a - b) * fone / (a + b)).

Definition ln2 : Z := Eval vm_compute in ln_ratio 2 1.

(** [ln (m * 2^e)] for a positive mantissa [m]. *)
Definition ln_fix (m : positive) (e : Z) : Z :=
  let d := Zpos (digits2_pos m) in
  ln_ratio (Zpos m) (2 ^ (d - 1)) + (e + d - 1) * ln2.

(** [exp r = 1 + r + r^2/2! + ...] for a fixed-point [0 <= r < ln 2]. *)
Fixpoint exp_terms (n : nat) (k term r acc : Z) : Z :=
  match n with
  | O => acc
  | S n' => exp_terms n' (k + 1) (Z.shiftr (term * r) fbits / k) r (acc + term)
  end.

Definition exp_fix (r : Z) : Z := exp_terms 30 1 fone r 0.

(** [x^y] for [x = mx * 2^ex > 0] and [y = (-1)^sy * my * 2^ey]. *)
Definition pow_pos (mx : positive) (ex : Z) (sy : bool) (my : positive) (ey : Z)
  : double :=
  let l := ln_fix mx ex in
  if l =? 0 then one
  else
    let negw := xorb sy (l <? 0) in
    if 12 <? Z.log2 (Z.abs l) + Zpos (digits2_pos my) + ey - fbits then
      (if negw then S754_zero false else pinf)
    else
      let w := Z.shiftl (cond_Zopp sy (Zpos my) * l) ey in
      let n := w / ln2 in
      binary_normalize prec64 emax64 (exp_fix (w - n * ln2)) (n - fbits) false.

Definition is_integer (m : positive) (e : Z) : bool :=
  (0 <=? e) || (Zpos m mod 2 ^ (- e) =? 0).

Definition is_odd_integer (m : positive) (e : Z) : bool :=
  if 0 <=? e then (e =? 0) && Z.odd (Zpos m)
  else (Zpos m mod 2 ^ (- e) =? 0) && Z.odd (Zpos m / 2 ^ (- e)).

Definition odd_integer (y : double) : bool :=
  match y with
  | S754_finite _ m e => is_odd_integer m e
  | _ => false
  end.

Definition negative (y : double) : bool :=
  match y with
  | S754_zero s | S754_infinity s | S754_finite s _ _ => s
  | S754_nan => false
  end.

Definition pow (x y : double) : double :=
  match x, y with
  | _, S754_zero _ => one
  | S754_nan, _ => nan
  | S754_finite false 4503599627370496 (-52), _ => one
  | _, S754_nan => nan
  | S754_zero sx, _ =>
      if negative y then S754_infinity (sx && odd_integer y)
      else S754_zero (sx && odd_integer y)
  | S754_infinity sx, _ =>
      if negative y then S754_zero (sx && odd_integer y)
      else S754_infinity (sx && odd_integer y)
  | S754_finite _ mx ex, S754_infinity sy =>
      match SFcompare (S754_finite false mx ex) one with
      | Some Eq => one
      | Some Lt => if sy then pinf else S754_zero false
      | _ => if sy then S754_zero false else pinf
      end
  | S754_finite false mx ex, S754_finite sy my ey => pow_pos mx ex sy my ey
  | S754_finite true mx ex, S754_finite sy my ey =>
      if is_integer my ey then
        (if is_odd_integer my ey
         then SFopp (pow_pos mx ex sy my ey)
         else pow_pos mx ex sy my ey)
      else nan
  end.

End Libm.

(** The arithmetic of the compiled code. *)
Definition ieee : Arith := {|
  flt := IEEE.float;
  dbl := IEEE.double;
  f2d := IEEE.to_double;
  d2f := IEEE.to_float;
  i2d := IEEE.of_int;
  dlit := IEEE.literal;
  dadd := SFadd IEEE.prec64 IEEE.emax64;
  dsub := SFsub IEEE.prec64 IEEE.emax64;
  dmul := SFmul IEEE.prec64 IEEE.emax64;
  ddiv := SFdiv IEEE.prec64 IEEE.emax64;
  dneg := SFopp;
  dpow := Libm.pow;
  dlt := SFltb;
  fdiv := SFdiv IEEE.prec32 IEEE.emax32;
  fgt := fun x y => SFltb y x;
  fle := SFleb;
  fge := fun x y => SFleb y x
|}.

(** The macros as the MQ135 Arduino library publishes them in MQ135.h.
    They are used to run the model on examples only; every general
    statement below is about an arbitrary [header]. *)
Definition MQ135_h : header ieee := {|
  CORA := IEEE.literal 35 5;              (* 0.00035 *)
  CORB := IEEE.literal 2718 5;            (* 0.02718 *)
  CORC := IEEE.literal 139538 5;          (* 1.39538 *)
  CORD := IEEE.literal 18 4;              (* 0.0018 *)
  PARA := IEEE.literal 1166020682 7;      (* 116.6020682 *)
  PARB := IEEE.literal 2769034857 9;      (* 2.769034857 *)
  ATMOCO2 := IEEE.literal 39713 2         (* 397.13 *)
|}.

(* ================================================================== *)
(** * Exact arithmetic: the algebra behind the formulas *)
(* ================================================================== *)

Module Exact.

Definition ltb (x y : R) : bool := if Rlt_dec x y then true else false.
Definition leb (x y : R) : bool := if Rle_dec x y then true else false.
Definition literal (m : Z) (k : nat) : R := (IZR m / 10 ^ k)%R.

End Exact.

(** Both C types are read as the reals, conversions do nothing, and
    [pow] is the real power function. *)
Definition exact : Arith := {|
  flt := R;
  dbl := R;
  f2d := fun x => x;
  d2f := fun x => x;
  i2d := IZR;
  dlit := Exact.literal;
  dadd := Rplus;
  dsub := Rminus;
  dmul := Rmult;
  ddiv := Rdiv;
  dneg := Ropp;
  dpow := Rpower;
  dlt := Exact.ltb;
  fdiv := Rdiv;
  fgt := fun x y => Exact.ltb y x;
  fle := Exact.leb;
  fge := fun x y => Exact.leb y x
|}.

(* ================================================================== *)
(** * Vocabulary for the sampling *)
(* ================================================================== *)

Section Samples.
Context {A : Arith}.
Variable adc : nat -> Z -> Z.

(** The voltage that [getResistance] derives from a raw sample. *)
Definition volts (raw : Z) : flt :=
  d2f (i2d raw * dlit 2450 3 / dlit 4095 0)%D.

(** The samples that a [getResistance] entered in [m] reads. *)
Definition sensor_sample (m : machine A) : Z :=
  adc (reads m) (_pin (self m)) mod 65536.
Definition reference_sample (m : machine A) : Z :=
  adc (S (reads m)) 33 mod 65536.

(** The resistance computed from a sensor and a reference sample. *)
Definition resistance_of (raw raw_ref : Z) : flt :=
  d2f (dlit 3 0 * f2d (volts raw_ref) * dlit 100 1 / f2d (volts raw)
       - dlit 2 0)%D.

(** The machine [m] with another calibration constant. *)
Definition with_rzero (r : flt) (m : machine A) : machine A :=
  {| self := {| _pin := _pin (self m); _rzero := r |};
     reads := reads m; trace := trace m |}.

End Samples.

(** What [getPPM] returns on the samples of [m] once the result of
    [getRZero], computed from the same samples, is stored in [_rzero]. *)
Definition ppm_after_recalibration {A : Arith} (adc : nat -> Z -> Z)
  (H : header A) (m : machine A) : flt :=
  fst (getPPM adc H (with_rzero (fst (getRZero adc H m)) m)).

(* ================================================================== *)
(** * Vocabulary for the calibration loop *)
(* ================================================================== *)

(** Number of [vTaskDelay] calls recorded in a trace. *)
Fixpoint delays {A : Arith} (tr : list (event A)) : Z :=
  match tr with
  | [] => 0
  | TaskDelay _ :: tr' => 1 + delays tr'
  | _ :: tr' => delays tr'
  end.

Section Iterations.
Context {A : Arith}.
Variable adc : nat -> Z -> Z.
Variable H : header A.
Variables cal_ppm t h : flt.
Variable step : dbl.

(** The measurement that an iteration entered in [m] compares with the
    target: it is taken after [_rzero += step]. *)
Definition fresh_measurement (m : machine A) : flt :=
  fst (getCorrectedPPM adc H t h (snd (add_rzero step m))).

(** The machine in which an iteration entered in [m] executes [break]. *)
Definition at_break (m : machine A) : machine A :=
  snd (getCorrectedPPM adc H t h (snd (add_rzero step m))).

(** The machine after the iteration numbered [it], entered in [m], has
    run to the end of the loop body. *)
Definition next_iteration (it : Z) (m : machine A) : machine A :=
  snd ((if Z.rem it 30 =? 0 then vTaskDelay 1 else ret tt) (at_break m)).

(** The machine in which iteration [k] is entered when none of the
    iterations before it left the loop. *)
Fixpoint iteration_start (k : nat) (m : machine A) : machine A :=
  match k with
  | O => m
  | S k' => next_iteration (Z.of_nat k') (iteration_start k' m)
  end.

(** Iteration [k] finds the target crossed. *)
Definition breaks_at (m : machine A) (k : nat) : bool :=
  crossed step (fresh_measurement (iteration_start k m)) cal_ppm.

End Iterations.

(** The machine in which the loop of [calibrateRZero] starts, the step
    chosen, and the value of [it] with which the loop is left. *)
Section Calibration.
Context {A : Arith}.
Variable adc : nat -> Z -> Z.
Variable H : header A.
Variables cal_ppm t h : flt.
Variable m : machine A.

Definition initial_measurement : flt := fst (getCorrectedPPM adc H t h m).
Definition loop_entry : machine A := snd (getCorrectedPPM adc H t h m).
Definition chosen_step : dbl := choose_step initial_measurement cal_ppm.
Definition final_it : Z :=
  fst (calibrate_loop adc H (Z.to_nat 10000) cal_ppm t h chosen_step 0 loop_entry).
Definition after_loop : machine A :=
  snd (calibrate_loop adc H (Z.to_nat 10000) cal_ppm t h chosen_step 0 loop_entry).

(** Number of times the loop body was entered: an iteration that
    breaks has been entered but not counted by [it]. *)
Definition iterations_entered : Z :=
  if final_it <? 10000 then final_it + 1 else 10000.

End Calibration.

(* ================================================================== *)
(** * Environments for the examples *)
(* ================================================================== *)

(** An ADC that holds [v] on every sensor pin and [r] on the reference
    channel, and a driver that has not sampled yet. *)
Definition steady (v r : Z) : nat -> Z -> Z :=
  fun _ pin => if pin =? 33 then r else v.

Definition fresh (pin : Z) (rzero0 : IEEE.float) : machine ieee :=
  {| self := MQ135_new (A := ieee) pin rzero0; reads := 0; trace := [] |}.

(** A [float] given by a decimal literal, as in a call [f(400.0f)]. *)
Definition flit (m : Z) (k : nat) : IEEE.float := IEEE.to_float (IEEE.literal m k).

(** 2^21 as a [float]: from here on the spacing of binary32 is 0.25 and
    adding 0.1 rounds back to the same number. *)
Definition two_to_21 : IEEE.float := IEEE.to_float (IEEE.of_int 2097152).

(** The same constants and the same kind of driver in exact arithmetic. *)
Definition MQ135_h_exact : header exact := {|
  CORA := Exact.literal 35 5;
  CORB := Exact.literal 2718 5;
  CORC := Exact.literal 139538 5;
  CORD := Exact.literal 18 4;
  PARA := Exact.literal 1166020682 7;
  PARB := Exact.literal 2769034857 9;
  ATMOCO2 := Exact.literal 39713 2
|}.

Definition fresh_exact (pin : Z) (rzero0 : R) : machine exact :=
  {| self := MQ135_new (A := exact) pin rzero0; reads := 0; trace := [] |}.

(** [p] holds of every integer in [0, n). *)
Fixpoint all_below (n : nat) (p : Z -> bool) : bool :=
  match n with
  | O => true
  | S n' => p (Z.of_nat n') && all_below n' p
  end.

(* ================================================================== *)
(** * Vocabulary for the further properties *)
(* ================================================================== *)

(** An ADC whose channels hold the same value at every read. *)
Definition time_independent (adc : nat -> Z -> Z) : Prop :=
  forall (n n' : nat) (pin : Z), adc n pin = adc n' pin.

(** An ADC on which every read of every channel returns 0. *)
Definition disconnected (adc : nat -> Z -> Z) : Prop :=
  forall (n : nat) (pin : Z), adc n pin mod 65536 = 0.

Definition is_zero (x : spec_float) : bool :=
  match x with S754_zero _ => true | _ => false end.

(** What [getCorrectedPPM t h] returns on the samples of [m] when
    [_rzero] holds [r]. *)
Definition ppm_at {A : Arith} (adc : nat -> Z -> Z) (H : header A) (t h : flt)
  (m : machine A) (r : flt) : flt :=
  fst (getCorrectedPPM adc H t h (with_rzero r m)).

(* ================================================================== *)
(** * What each method does to the machine *)
(* ================================================================== *)

Section Frames.
Context {A : Arith}.
Variable adc : nat -> Z -> Z.
Variable H : header A.

Lemma getResistance_run (m : machine A) :
  getResistance adc m =
  (resistance_of (sensor_sample adc m) (reference_sample adc m),
   {| self := self m;
      reads := S (S (reads m));
      trace := LogResistance (volts (sensor_sample adc m))
                             (volts (reference_sample adc m))
                             (resistance_of (sensor_sample adc m) (reference_sample adc m))
               :: AnalogRead 33 (reference_sample adc m)
               :: AnalogRead (_pin (self m)) (sensor_sample adc m)
               :: trace m |}).
Proof. reflexivity. Qed.

Lemma getCorrectionFactor_run (t h : flt) (m : machine A) :
  getCorrectionFactor H t h m = (fst (getCorrectionFactor H t h m), m).
Proof. reflexivity. Qed.

Lemma getCorrectedPPM_self (t h : flt) (m : machine A) :
  self (snd (getCorrectedPPM adc H t h m)) = self m.
Proof. reflexivity. Qed.

Lemma getCorrectedPPM_reads (t h : flt) (m : machine A) :
  reads (snd (getCorrectedPPM adc H t h m)) = S (S (reads m)).
Proof. reflexivity. Qed.

Lemma getCorrectedPPM_delays (t h : flt) (m : machine A) :
  delays (trace (snd (getCorrectedPPM adc H t h m))) = delays (trace m).
Proof. reflexivity. Qed.

Lemma add_rzero_run (step : dbl) (m : machine A) :
  add_rzero step m =
  (tt, {| self := {| _pin := _pin (self m);
                     _rzero := bump step (_rzero (self m)) |};
          reads := reads m; trace := trace m |}).
Proof. reflexivity. Qed.

End Frames.

(* ================================================================== *)
(** * The calibration loop *)
(* ================================================================== *)

Section LoopFacts.
Context {A : Arith}.
Variable adc : nat -> Z -> Z.
Variable H : header A.
Variables cal_ppm t h : flt.
Variable step : dbl.

Let loop := fun fuel => calibrate_loop adc H fuel cal_ppm t h step.
Let start := iteration_start adc H t h step.
Let breaks := breaks_at adc H cal_ppm t h step.

(** One turn of the loop, in the vocabulary above. *)
Lemma calibrate_loop_step (fuel : nat) (it : Z) (m : machine A) :
  loop (S fuel) it m =
  if it <? 10000 then
    if crossed step (fresh_measurement adc H t h step m) cal_ppm
    then (it, at_break adc H t h step m)
    else loop fuel (it + 1) (next_iteration adc H t h step it m)
  else (it, m).
Proof.
  unfold loop. cbn [calibrate_loop].
  destruct (it <? 10000); [| reflexivity].
  change ((add_rzero step ;;;
           measurement <- getCorrectedPPM adc H t h ;;
           if crossed step measurement cal_ppm then ret it
           else
             (if Z.rem it 30 =? 0 then vTaskDelay 1 else ret tt) ;;;
             calibrate_loop adc H fuel cal_ppm t h step (it + 1)) m)
    with
    (let (measurement, m2) :=
       getCorrectedPPM adc H t h (snd (add_rzero step m)) in
     (if crossed step measurement cal_ppm then ret it
      else
        (if Z.rem it 30 =? 0 then vTaskDelay 1 else ret tt) ;;;
        calibrate_loop adc H fuel cal_ppm t h step (it + 1)) m2).
  unfold next_iteration, fresh_measurement, at_break.
  destruct (getCorrectedPPM adc H t h _) as [measurement m2]. cbn [fst snd].
  destruct (crossed step measurement cal_ppm); [reflexivity|].
  unfold bind.
  destruct ((if Z.rem it 30 =? 0 then vTaskDelay 1 else ret tt) m2).
  reflexivity.
Qed.

Lemma next_iteration_self (it : Z) (m : machine A) :
  self (next_iteration adc H t h step it m) =
  {| _pin := _pin (self m); _rzero := bump step (_rzero (self m)) |}.
Proof.
  unfold next_iteration. destruct (Z.rem it 30 =? 0); reflexivity.
Qed.

Lemma next_iteration_reads (it : Z) (m : machine A) :
  reads (next_iteration adc H t h step it m) = S (S (reads m)).
Proof.
  unfold next_iteration. destruct (Z.rem it 30 =? 0); reflexivity.
Qed.

Lemma next_iteration_delays (it : Z) (m : machine A) :
  delays (trace (next_iteration adc H t h step it m)) =
  delays (trace m) + (if Z.rem it 30 =? 0 then 1 else 0).
Proof.
  assert (E : delays (trace (at_break adc H t h step m)) = delays (trace m))
    by reflexivity.
  unfold next_iteration. destruct (Z.rem it 30 =? 0).
  - change (1 + delays (trace (at_break adc H t h step m)) = delays (trace m) + 1).
    lia.
  - change (delays (trace (at_break adc H t h step m)) = delays (trace m) + 0).
    lia.
Qed.

(** The direction is never revised: iteration [k] is entered with the
    step added [k] times. *)
Lemma iteration_start_rzero (k : nat) (m : machine A) :
  _rzero (self (start k m)) = Nat.iter k (bump step) (_rzero (self m)).
Proof.
  induction k as [|k IH]; [reflexivity|].
  unfold start in *. cbn [iteration_start Nat.iter].
  rewrite next_iteration_self. cbn. now rewrite IH.
Qed.

Lemma iteration_start_pin (k : nat) (m : machine A) :
  _pin (self (start k m)) = _pin (self m).
Proof.
  induction k as [|k IH]; [reflexivity|].
  unfold start in *. cbn [iteration_start].
  rewrite next_iteration_self. exact IH.
Qed.

Lemma iteration_start_reads (k : nat) (m : machine A) :
  reads (start k m) = (reads m + 2 * k)%nat.
Proof.
  induction k as [|k IH]; [cbn; lia|].
  unfold start in *. cbn [iteration_start].
  rewrite next_iteration_reads, IH. lia.
Qed.

(** Rounding up to a multiple of 30, one step at a time. *)
Lemma ceil30_succ (k : Z) :
  0 <= k ->
  (k + 1 + 29) / 30 = (k + 29) / 30 + (if Z.rem k 30 =? 0 then 1 else 0).
Proof.
  intros Hk. rewrite Z.rem_mod_nonneg by lia.
  pose proof (Z.div_mod k 30 ltac:(lia)) as E.
  pose proof (Z.mod_pos_bound k 30 ltac:(lia)) as B.
  set (q := k / 30) in *. set (r := k mod 30) in *.
  replace (k + 1 + 29) with ((q + 1) * 30 + r) by lia.
  replace (k + 29) with (q * 30 + (r + 29)) by lia.
  rewrite !Z.div_add_l by lia.
  rewrite (Z.div_small r 30) by lia.
  destruct (Z.eqb_spec r 0) as [->|N].
  - rewrite (Z.div_small (0 + 29)) by lia. lia.
  - replace (r + 29) with (1 * 30 + (r - 1)) by lia.
    rewrite Z.div_add_l, Z.div_small by lia. lia.
Qed.

Lemma iteration_start_delays (k : nat) (m : machine A) :
  delays (trace (start k m)) = delays (trace m) + (Z.of_nat k + 29) / 30.
Proof.
  induction k as [|k IH]; [cbn; lia|].
  unfold start in *. cbn [iteration_start].
  rewrite next_iteration_delays, IH.
  rewrite Nat2Z.inj_succ, <- Z.add_1_r, ceil30_succ by lia. lia.
Qed.

(** The loop, entered at iteration [k] with enough fuel for the
    remaining iterations, is left either at the first iteration
    [j >= k] that finds the target crossed, or at 10000. *)
Lemma calibrate_loop_run (fuel k : nat) (m0 : machine A) :
  Z.of_nat k + Z.of_nat fuel = 10000 ->
  exists j : nat,
    fst (loop fuel (Z.of_nat k) (start k m0)) = Z.of_nat j /\
    (k <= j)%nat /\ Z.of_nat j <= 10000 /\
    (forall i, (k <= i < j)%nat -> breaks m0 i = false) /\
    ((Z.of_nat j < 10000 /\ breaks m0 j = true /\
      snd (loop fuel (Z.of_nat k) (start k m0)) =
      at_break adc H t h step (start j m0))
     \/
     (Z.of_nat j = 10000 /\
      snd (loop fuel (Z.of_nat k) (start k m0)) = start j m0)).
Proof.
  revert k. induction fuel as [|fuel IH]; intros k E.
  - exists k. cbn. repeat split; try lia. right. split; [lia | reflexivity].
  - rewrite calibrate_loop_step.
    destruct (Z.ltb_spec (Z.of_nat k) 10000) as [_|]; [|lia].
    destruct (crossed step _ cal_ppm) eqn:C.
    + exists k. cbn [fst snd]. repeat split; try lia.
      left. repeat split; [lia | exact C].
    + destruct (IH (S k) ltac:(lia)) as (j & E1 & L1 & L2 & NB & D).
      replace (Z.of_nat k + 1) with (Z.of_nat (S k)) by lia.
      change (next_iteration adc H t h step (Z.of_nat k) (start k m0))
        with (start (S k) m0).
      exists j. repeat split; try lia; try exact E1.
      * intros i Hi. destruct (Nat.eq_dec i k) as [->|N]; [exact C|].
        apply NB. lia.
      * exact D.
Qed.

(** Fuel beyond the iterations that remain changes nothing. *)
Lemma calibrate_loop_fuel (fuel extra : nat) (it : Z) (m : machine A) :
  10000 - it <= Z.of_nat fuel ->
  loop (fuel + extra) it m = loop fuel it m.
Proof.
  revert it m. induction fuel as [|fuel IH]; intros it m E.
  - destruct extra; [reflexivity|].
    cbn [Nat.add]. rewrite calibrate_loop_step.
    destruct (Z.ltb_spec it 10000); [lia | reflexivity].
  - cbn [Nat.add]. rewrite !calibrate_loop_step.
    destruct (it <? 10000); [| reflexivity].
    destruct (crossed step _ cal_ppm); [reflexivity|].
    apply IH. lia.
Qed.

End LoopFacts.

(* ================================================================== *)
(** * A whole calibration *)
(* ================================================================== *)

Section CalibrationFacts.
Context {A : Arith}.
Variable adc : nat -> Z -> Z.
Variable H : header A.
Variables cal_ppm t h : flt.
Variable m : machine A.

Let step := chosen_step adc H cal_ppm t h m.
Let entry := loop_entry adc H t h m.
Let it := final_it adc H cal_ppm t h m.
Let out := after_loop adc H cal_ppm t h m.
Let start := iteration_start adc H t h step.
Let breaks := breaks_at adc H cal_ppm t h step.

(** The epilogue: the flag is the test [it < 1000], and the only thing
    done after the loop is one log entry. *)
Lemma calibrateRZero_run :
  calibrateRZero adc H cal_ppm t h m =
  if it <? 1000 then
    (true, {| self := self out; reads := reads out;
              trace := LogCalibrated it (_rzero (self out)) :: trace out |})
  else
    (false, {| self := self out; reads := reads out;
               trace := LogFailed it :: trace out |}).
Proof.
  unfold it, out, final_it, after_loop, chosen_step, initial_measurement,
    loop_entry, calibrateRZero, bind.
  destruct (getCorrectedPPM adc H t h m) as [measurement m1]. cbn [fst snd].
  destruct (calibrate_loop adc H (Z.to_nat 10000) cal_ppm t h _ 0 m1)
    as [i m2]. cbn [fst snd].
  destruct (i <? 1000); reflexivity.
Qed.

(** How the loop is out. *)
Lemma calibration_exit :
  exists j : nat,
    it = Z.of_nat j /\ Z.of_nat j <= 10000 /\
    (forall i, (i < j)%nat -> breaks entry i = false) /\
    ((Z.of_nat j < 10000 /\ breaks entry j = true /\
      out = at_break adc H t h step (start j entry))
     \/ (Z.of_nat j = 10000 /\ out = start j entry)).
Proof.
  destruct (@calibrate_loop_run A adc H cal_ppm t h step (Z.to_nat 10000) 0 entry)
    as (j & E & _ & L & NB & D); [lia|].
  exists j. repeat split.
  - exact E.
  - exact L.
  - intros i Hi. apply NB. lia.
  - exact D.
Qed.

Lemma final_it_range : 0 <= it <= 10000.
Proof. destruct calibration_exit as (j & E & L & _). lia. Qed.

Lemma loop_entry_self : self entry = self m.
Proof. reflexivity. Qed.

Lemma loop_entry_delays : delays (trace entry) = delays (trace m).
Proof. reflexivity. Qed.

(** [_rzero] after the loop: the step added once per iteration entered. *)
Lemma after_loop_rzero :
  _rzero (self out) =
  Nat.iter (Z.to_nat (iterations_entered adc H cal_ppm t h m))
           (bump step) (_rzero (self m)).
Proof.
  unfold iterations_entered. fold it.
  destruct calibration_exit as (j & E & L & _ & [(Lt & _ & S) | (Eq & S)]).
  - destruct (Z.ltb_spec it 10000); [|lia].
    rewrite S, E. replace (Z.to_nat (Z.of_nat j + 1)) with (Datatypes.S j) by lia.
    change (bump step (_rzero (self (start j entry))) =
            Nat.iter (Datatypes.S j) (bump step) (_rzero (self m))).
    unfold start. rewrite iteration_start_rzero. reflexivity.
  - destruct (Z.ltb_spec it 10000); [lia|].
    rewrite S. unfold start. rewrite iteration_start_rzero.
    replace (Z.to_nat 10000) with j by lia. reflexivity.
Qed.

Lemma after_loop_pin : _pin (self out) = _pin (self m).
Proof.
  destruct calibration_exit as (j & _ & _ & _ & [(_ & _ & S) | (_ & S)]);
    rewrite S.
  - change (_pin (self (start j entry)) = _pin (self m)).
    unfold start. now rewrite iteration_start_pin.
  - unfold start. now rewrite iteration_start_pin.
Qed.

(** [vTaskDelay] calls made by the loop. *)
Lemma after_loop_delays :
  delays (trace out) = delays (trace m) + (it + 29) / 30.
Proof.
  destruct calibration_exit as (j & E & _ & _ & [(_ & _ & S) | (_ & S)]);
    rewrite S, E.
  - change (delays (trace (start j entry)) =
            delays (trace m) + (Z.of_nat j + 29) / 30).
    unfold start. now rewrite iteration_start_delays.
  - unfold start. now rewrite iteration_start_delays.
Qed.

Lemma calibrateRZero_flag :
  fst (calibrateRZero adc H cal_ppm t h m) = (it <? 1000).
Proof. rewrite calibrateRZero_run. now destruct (it <? 1000). Qed.

Lemma calibrateRZero_self :
  self (snd (calibrateRZero adc H cal_ppm t h m)) = self out.
Proof. rewrite calibrateRZero_run. now destruct (it <? 1000). Qed.

Lemma calibrateRZero_delays :
  delays (trace (snd (calibrateRZero adc H cal_ppm t h m))) =
  delays (trace out).
Proof. rewrite calibrateRZero_run. now destruct (it <? 1000). Qed.

End CalibrationFacts.

(* ================================================================== *)
(** * Consequences for the caller *)
(* ================================================================== *)

Section CallerFacts.
Context {A : Arith}.
Variable adc : nat -> Z -> Z.
Variable H : header A.
Variables cal_ppm t h : flt.
Variable m : machine A.

(** A search that never finds the target crossed uses all iterations. *)
Lemma never_crossed_final_it :
  (forall i : nat,
     breaks_at adc H cal_ppm t h (chosen_step adc H cal_ppm t h m)
               (loop_entry adc H t h m) i = false) ->
  final_it adc H cal_ppm t h m = 10000.
Proof.
  intros N.
  destruct (calibration_exit adc H cal_ppm t h m)
    as (j & E & _ & _ & [(_ & B & _) | (Eq & _)]).
  - rewrite N in B. discriminate.
  - lia.
Qed.

(** The first test of the loop decides whether [it] stays 0. *)
Lemma first_test_decides :
  final_it adc H cal_ppm t h m = 0 <->
  breaks_at adc H cal_ppm t h (chosen_step adc H cal_ppm t h m)
            (loop_entry adc H t h m) 0 = true.
Proof.
  destruct (calibration_exit adc H cal_ppm t h m) as (j & E & L & NB & D).
  split.
  - intros Z0. destruct D as [(_ & B & _) | (Eq & _)]; [|lia].
    replace j with 0%nat in B by lia. exact B.
  - intros B. destruct j as [|j]; [lia|].
    rewrite (NB 0%nat) in B by lia. discriminate.
Qed.

Lemma iterations_entered_range :
  1 <= iterations_entered adc H cal_ppm t h m <= 10000 /\
  (fst (calibrateRZero adc H cal_ppm t h m) = false ->
   1001 <= iterations_entered adc H cal_ppm t h m).
Proof.
  pose proof (final_it_range adc H cal_ppm t h m) as R.
  pose proof (calibrateRZero_flag adc H cal_ppm t h m) as F.
  unfold iterations_entered.
  destruct (Z.ltb_spec (final_it adc H cal_ppm t h m) 10000);
    (split; [lia|]); intros E; rewrite E in F; symmetry in F;
    apply Z.ltb_ge in F; lia.
Qed.

Lemma calibrateRZero_rzero :
  _rzero (self (snd (calibrateRZero adc H cal_ppm t h m))) =
  Nat.iter (Z.to_nat (iterations_entered adc H cal_ppm t h m))
           (bump (chosen_step adc H cal_ppm t h m)) (_rzero (self m)).
Proof. rewrite calibrateRZero_self. apply after_loop_rzero. Qed.

Lemma calibrateRZero_yields :
  delays (trace (snd (calibrateRZero adc H cal_ppm t h m))) =
  delays (trace m) + (final_it adc H cal_ppm t h m + 29) / 30.
Proof. rewrite calibrateRZero_delays. apply after_loop_delays. Qed.

End CallerFacts.

Lemma iter_fixpoint {T : Type} (f : T -> T) (x : T) (n : nat) :
  f x = x -> Nat.iter n f x = x.
Proof.
  intros E. induction n as [|n IH]; [reflexivity|].
  change (f (Nat.iter n f x) = x). now rewrite IH.
Qed.

Lemma all_below_spec (n : nat) (p : Z -> bool) :
  all_below n p = true -> forall z, 0 <= z < Z.of_nat n -> p z = true.
Proof.
  induction n as [|n IH]; intros E z Hz; [lia|].
  cbn [all_below] in E. apply andb_prop in E as [E1 E2].
  destruct (Z.eq_dec z (Z.of_nat n)) as [->|N]; [exact E1|].
  apply IH; [exact E2 | lia].
Qed.

(* ================================================================== *)
(** * Facts of the IEEE reading *)
(* ================================================================== *)

(** The literals of the source, as bit patterns. *)
Example literal_0_1 :
  IEEE.literal 1 1 = S754_finite false 7205759403792794 (-56).
Proof. vm_compute. reflexivity. Qed.

Example literal_2_450 :
  IEEE.literal 2450 3 = S754_finite false 5516909543528858 (-51).
Proof. vm_compute. reflexivity. Qed.

Lemma is_pinf_eq (x : spec_float) : IEEE.is_pinf x = true -> x = IEEE.pinf.
Proof. destruct x as [| [] | |]; try discriminate. reflexivity. Qed.

(** A NaN measurement crosses no target, in either direction. *)
Lemma crossed_nan (step : IEEE.double) (cal : IEEE.float) :
  crossed (A := ieee) step IEEE.nan cal = false.
Proof.
  change (crossed (A := ieee) step IEEE.nan cal)
    with (if SFltb step (IEEE.of_int 0) then SFleb IEEE.nan cal
          else SFleb cal IEEE.nan).
  destruct (SFltb step (IEEE.of_int 0)); [reflexivity|].
  destruct cal; reflexivity.
Qed.

(** A sensor that reads 0 on both channels: the resistance is 0/0, and
    the NaN goes through both divisions, [pow] and the product.  The
    constants matter only in that [PARB] is not zero. *)
Lemma disconnected_resistance (m : machine ieee) :
  fst (getResistance (A := ieee) (steady 0 0) m) = IEEE.nan.
Proof.
  rewrite getResistance_run. cbn [fst].
  unfold sensor_sample, reference_sample, steady.
  destruct (_ =? 33); vm_compute; reflexivity.
Qed.

Lemma disconnected_measurement (t h : IEEE.float) (m : machine ieee) :
  fst (getCorrectedPPM (A := ieee) (steady 0 0) MQ135_h t h m) = IEEE.nan.
Proof.
  change (fst (getCorrectedPPM (A := ieee) (steady 0 0) MQ135_h t h m))
    with (IEEE.to_float
            (SFmul IEEE.prec64 IEEE.emax64 (PARA MQ135_h)
               (Libm.pow
                  (IEEE.to_double
                     (SFdiv IEEE.prec32 IEEE.emax32
                        (SFdiv IEEE.prec32 IEEE.emax32
                           (fst (getResistance (A := ieee) (steady 0 0) m))
                           (fst (getCorrectionFactor (A := ieee) MQ135_h t h m)))
                        (_rzero (self m))))
                  (SFopp (PARB MQ135_h))))).
  rewrite disconnected_resistance.
  vm_compute. reflexivity.
Qed.

Lemma disconnected_exhausts (cal t h : IEEE.float) (m : machine ieee) :
  final_it (A := ieee) (steady 0 0) MQ135_h cal t h m = 10000 /\
  chosen_step (A := ieee) (steady 0 0) MQ135_h cal t h m = IEEE.literal 1 1.
Proof.
  split.
  - apply never_crossed_final_it. intros i.
    unfold breaks_at, fresh_measurement.
    rewrite disconnected_measurement. apply crossed_nan.
  - unfold chosen_step, initial_measurement.
    rewrite disconnected_measurement.
    unfold choose_step. destruct cal; reflexivity.
Qed.

(** With the sensor sample 0 and a 12-bit reference sample that is not 0
    the quotient is [+inf], by enumeration of the reference samples. *)
Lemma zero_sensor_sample_12bit :
  all_below (Z.to_nat 4096)
    (fun r => (r =? 0) || IEEE.is_pinf (resistance_of (A := ieee) 0 r)) = true.
Proof. vm_compute. reflexivity. Qed.

(** NaN goes through [pow] (for an exponent that is not zero) and
    through a product. *)
Lemma pow_nan (y : IEEE.double) :
is_zero y = false -> Libm.pow IEEE.nan y = IEEE.nan.
Proof. destruct y; [discriminate | reflexivity..]. Qed.

Lemma to_float_nan_product (x : IEEE.double) :
IEEE.to_float (SFmul IEEE.prec64 IEEE.emax64 x IEEE.nan) = IEEE.nan.
Proof. destruct x; reflexivity. Qed.





(** The rounded value of the correction factor can be an infinity: with
    the published constants, [t = 2^127] gives [+inf]. *)
Example correction_factor_overflows :
fst (getCorrectionFactor (A := ieee) MQ135_h
       (IEEE.to_float (IEEE.of_int (2 ^ 127))) (flit 33 0)
       (fresh 34 (flit 7663 2))) = IEEE.pinf.
Proof. vm_compute. reflexivity. Qed.

(** On ordinary samples the driver computes what one expects: 22 kOhm
    for the samples 1500 and 1200. *)
Example steady_resistance :
fst (getResistance (A := ieee) (steady 1500 1200) (fresh 34 (flit 7663 2)))
= flit 22 0.
Proof. vm_compute. reflexivity. Qed.

(* ================================================================== *)
(** * Facts of the exact reading *)
(* ================================================================== *)

Lemma exact_iter_bump (s r : R) (k : nat) :
  Nat.iter k (bump (A := exact) s) r = (r + IZR (Z.of_nat k) * s)%R.
Proof.
  induction k as [|k IH].
  - cbn. lra.
  - change (Nat.iter (S k) (bump (A := exact) s) r)
      with (Nat.iter k (bump (A := exact) s) r + s)%R.
    rewrite IH, Nat2Z.inj_succ, succ_IZR. lra.
Qed.

Lemma exact_step_cases (adc : nat -> Z -> Z) (H : header exact) (cal t h : R)
  (m : machine exact) :
  chosen_step (A := exact) adc H cal t h m = (1 / 10)%R \/
  chosen_step (A := exact) adc H cal t h m = (- (1 / 10))%R.
Proof.
  unfold chosen_step, choose_step.
  destruct (fgt _ _); [right | left]; cbn; unfold Exact.literal; cbn; lra.
Qed.

Lemma exact_matched_target_steps_up (adc : nat -> Z -> Z) (H : header exact)
  (cal t h : R) (m : machine exact) :
  initial_measurement (A := exact) adc H t h m = cal ->
  chosen_step (A := exact) adc H cal t h m = (1 / 10)%R.
Proof.
  intros E. unfold chosen_step, choose_step. rewrite E.
  change (fgt (Arith := exact) cal cal) with (Exact.ltb cal cal).
  unfold Exact.ltb. destruct (Rlt_dec cal cal); [lra|].
  cbn. unfold Exact.literal. cbn. lra.
Qed.

(** In exact arithmetic a calibration moves [_rzero] by [n] steps. *)
Lemma exact_calibrateRZero_rzero (adc : nat -> Z -> Z) (H : header exact)
  (cal_ppm t h : R) (m : machine exact) :
  let n := iterations_entered (A := exact) adc H cal_ppm t h m in
  let step := chosen_step (A := exact) adc H cal_ppm t h m in
  let before := _rzero (self m) in
  let after := _rzero (self (snd (calibrateRZero (A := exact) adc H cal_ppm t h m))) in
  after = (before + IZR n * step)%R /\ after <> before.
Proof.
  intros n step before after.
  destruct (iterations_entered_range (A := exact) adc H cal_ppm t h m) as [R _].
  fold n in R.
  assert (E : after = (before + IZR n * step)%R).
  { unfold after. rewrite (calibrateRZero_rzero (A := exact)).
    fold n step before. rewrite exact_iter_bump, Z2Nat.id by lia. reflexivity. }
  assert (N : (1 <= IZR n)%R) by (apply IZR_le; lia).
  pose proof (exact_step_cases adc H cal_ppm t h m) as S. fold step in S.
  split; [exact E|]. rewrite E. destruct S as [-> | ->]; nra.
Qed.



(* ================================================================== *)
(** * The success flag (C1) *)
(* ================================================================== *)

(** C1.  [calibrateRZero] returns [true] exactly when the loop is left
    with [it < 1000], although the loop itself runs up to [it = 10000]:
    [it] is the first iteration that finds the target crossed, or 10000
    when none does, and a run that is left with [1000 <= it] -- also one
    that converged -- returns [false]. *)
Theorem calibrateRZero_success_iff_below_1000
  {A : Arith} (adc : nat -> Z -> Z) (H : header A) (cal_ppm t h : flt)
  (m : machine A) :
  let it := final_it adc H cal_ppm t h m in
  let step := chosen_step adc H cal_ppm t h m in
  let entry := loop_entry adc H t h m in
  0 <= it <= 10000 /\
  (fst (calibrateRZero adc H cal_ppm t h m) = true <-> it < 1000) /\
  (forall i : nat, Z.of_nat i < it ->
     breaks_at adc H cal_ppm t h step entry i = false) /\
  (it < 10000 -> breaks_at adc H cal_ppm t h step entry (Z.to_nat it) = true) /\
  (1000 <= it -> fst (calibrateRZero adc H cal_ppm t h m) = false).
Proof.
  intros it step entry.
  pose proof (calibrateRZero_flag adc H cal_ppm t h m) as F. fold it in F.
  destruct (calibration_exit adc H cal_ppm t h m) as (j & E & L & NB & D).
  fold it in E. fold step entry in NB, D.
  split; [lia|]. split; [|split; [|split]].
  - rewrite F. apply Z.ltb_lt.
  - intros i Hi. apply NB. lia.
  - intros Hlt. destruct D as [(_ & B & _) | (Eq & _)]; [|lia].
    rewrite E, Nat2Z.id. exact B.
  - intros Hge. rewrite F. apply Z.ltb_ge. exact Hge.
Qed.

(** A calibration that converges, but only at iteration 1003: starting
    from [_rzero = 135] with steady samples, the search for 400 ppm walks
    down for more than a thousand steps and is reported as failed. *)
Lemma calibrateRZero_success_iff_below_1000_witness :
  let adc := steady 1500 1200 in
  let m := fresh 34 (flit 135 0) in
  let cal := flit 400 0 in
  let t := flit 20 0 in
  let h := flit 33 0 in
  final_it (A := ieee) adc MQ135_h cal t h m = 1003 /\
  fst (calibrateRZero (A := ieee) adc MQ135_h cal t h m) = false /\
  breaks_at (A := ieee) adc MQ135_h cal t h
    (chosen_step (A := ieee) adc MQ135_h cal t h m)
    (loop_entry (A := ieee) adc MQ135_h t h m) 1003 = true.
Proof.
  intros adc m cal t h.
  assert (E : final_it (A := ieee) adc MQ135_h cal t h m = 1003)
    by (vm_compute; reflexivity).
  destruct (calibrateRZero_success_iff_below_1000 (A := ieee) adc MQ135_h cal t h m)
    as (_ & _ & _ & B & F).
  rewrite E in B, F.
  split; [exact E|]. split; [apply F; lia|]. apply B. lia.
Defined.

(* ================================================================== *)
(** * The yield cadence (C2) *)
(* ================================================================== *)

(** C2, as the code has it.  The yield sits at the end of the loop body
    and is guarded by [it % 30 == 0]: it is made by the iterations
    0, 30, 60, ... that do not break.  A calibration that leaves the loop
    with [it] therefore calls [vTaskDelay] exactly [ceil (it / 30)]
    times, and nothing outside the loop yields. *)
Theorem calibrateRZero_yield_count
  {A : Arith} (adc : nat -> Z -> Z) (H : header A) (cal_ppm t h : flt)
  (m : machine A) :
  delays (trace (snd (calibrateRZero adc H cal_ppm t h m))) =
  delays (trace m) + (final_it adc H cal_ppm t h m + 29) / 30.
Proof. apply calibrateRZero_yields. Qed.

(** The count is not [floor (N / 30)].  With a sensor that reads 0 on
    both channels every measurement is NaN, which is neither above nor
    below any target: the step is [+.1], no iteration breaks, the loop
    runs all its [N = 10000] iterations and yields in the iterations
    0, 30, ..., 9990, that is 334 times, not 333. *)
Lemma yield_count_is_not_floor :
  let adc := steady 0 0 in
  let m := fresh 34 (flit 7663 2) in
  let cal := flit 400 0 in
  final_it (A := ieee) adc MQ135_h cal (flit 20 0) (flit 33 0) m = 10000 /\
  iterations_entered (A := ieee) adc MQ135_h cal (flit 20 0) (flit 33 0) m = 10000 /\
  delays (trace (snd (calibrateRZero (A := ieee) adc MQ135_h cal
                        (flit 20 0) (flit 33 0) m))) = 334 /\
  334 <> 10000 / 30.
Proof.
  cbv zeta.
  destruct (disconnected_exhausts (flit 400 0) (flit 20 0) (flit 33 0)
              (fresh 34 (flit 7663 2))) as [E _].
  unfold iterations_entered.
  rewrite (calibrateRZero_yields (A := ieee)), E.
  vm_compute. repeat split; discriminate.
Qed.

(** A short run shows the same: with steady samples, a target of 3590 ppm
    and [_rzero = 76.63] the measurement is 3597.17 ppm in the first
    iteration and 3584.17 ppm in the second, which breaks.  Two
    iterations, one yield. *)
Example two_iterations_one_yield :
  let adc := steady 1500 1200 in
  let m := fresh 34 (flit 7663 2) in
  let cal := flit 3590 0 in
  final_it (A := ieee) adc MQ135_h cal (flit 20 0) (flit 33 0) m = 1 /\
  iterations_entered (A := ieee) adc MQ135_h cal (flit 20 0) (flit 33 0) m = 2 /\
  delays (trace (snd (calibrateRZero (A := ieee) adc MQ135_h cal
                        (flit 20 0) (flit 33 0) m))) = 1.
Proof. vm_compute. repeat split; reflexivity. Qed.

(* ================================================================== *)
(** * Direction and termination of the search (C3) *)
(* ================================================================== *)

(** C3.  In an arithmetic where [-.1 < 0] holds and [.1 < 0] does not:
    the step is chosen once, from the measurement that
    [getCorrectedPPM] returns before the loop ([-.1] if it exceeds the
    target, [.1] otherwise); every iteration adds that same step, so
    iteration [k] is entered with the step added [k] times; the loop is
    left at the first iteration whose fresh measurement is [<=] the
    target (negative step) or [>=] the target (positive step), or with
    [it = 10000] when no iteration below 10000 finds that.
    [calibrateRZero] returns the flag [it < 1000] and the machine of
    that iteration -- the one that broke, or the one after the last --
    with one log entry added, and its [_rzero] is the value before the
    call with that one step added once per iteration entered. *)
Theorem calibration_direction_fixed_until_crossing
  {A : Arith} (adc : nat -> Z -> Z) (H : header A) (cal_ppm t h : flt)
  (m : machine A)
  (Hneg : dlt (- dlit 1 1)%D (i2d 0) = true)
  (Hpos : dlt (dlit 1 1) (i2d 0) = false) :
let first := fst (getCorrectedPPM adc H t h m) in
let entry := snd (getCorrectedPPM adc H t h m) in
let step := if fgt first cal_ppm then (- dlit 1 1)%D else dlit 1 1 in
let run := calibrateRZero adc H cal_ppm t h m in
let it := final_it adc H cal_ppm t h m in
let measured := fun k : nat =>
  fresh_measurement adc H t h step (iteration_start adc H t h step k entry) in
let crossing := fun k : nat =>
  if fgt first cal_ppm then fle (measured k) cal_ppm
  else fge (measured k) cal_ppm in
let stop :=
  if it <? 10000
  then at_break adc H t h step (iteration_start adc H t h step (Z.to_nat it) entry)
  else iteration_start adc H t h step (Z.to_nat it) entry in
chosen_step adc H cal_ppm t h m = step /\
(forall k : nat,
   _rzero (self (iteration_start adc H t h step k entry)) =
   Nat.iter k (bump step) (_rzero (self m))) /\
0 <= it <= 10000 /\
(forall i : nat, Z.of_nat i < it -> crossing i = false) /\
(it < 10000 -> crossing (Z.to_nat it) = true) /\
fst run = (it <? 1000) /\
snd run =
  {| self := self stop; reads := reads stop;
     trace := (if it <? 1000 then LogCalibrated it (_rzero (self stop))
               else LogFailed it) :: trace stop |} /\
_rzero (self (snd run)) =
  Nat.iter (Z.to_nat (if it <? 10000 then it + 1 else 10000)) (bump step)
           (_rzero (self m)).
Proof.
  intros first entry step run it measured crossing stop.
  assert (C : forall k, crossing k = breaks_at adc H cal_ppm t h step entry k).
  { intros k. unfold crossing, breaks_at, crossed, measured, step.
    destruct (fgt first cal_ppm); [now rewrite Hneg | now rewrite Hpos]. }
  destruct (calibration_exit adc H cal_ppm t h m) as (j & E & L & NB & D).
  change (chosen_step adc H cal_ppm t h m) with step in NB, D.
  change (loop_entry adc H t h m) with entry in NB, D.
  fold it in E.
  assert (O : after_loop adc H cal_ppm t h m = stop).
  { unfold stop. rewrite E, Nat2Z.id.
    destruct D as [(Lt & _ & Ex) | (Eq & Ex)]; rewrite Ex.
    - destruct (Z.ltb_spec (Z.of_nat j) 10000); [reflexivity | lia].
    - destruct (Z.ltb_spec (Z.of_nat j) 10000); [lia | reflexivity]. }
  split; [reflexivity|]. split; [|split; [lia|split; [|split; [|split; [|split]]]]].
  - intros k. unfold entry. rewrite iteration_start_rzero. reflexivity.
  - intros i Hi. rewrite C. apply NB. lia.
  - intros Hlt. rewrite C. destruct D as [(_ & B & _) | (Eq & _)]; [|lia].
    rewrite E, Nat2Z.id. exact B.
  - apply calibrateRZero_flag.
  - unfold run. rewrite calibrateRZero_run. fold it. rewrite O.
    destruct (it <? 1000); reflexivity.
  - unfold run. rewrite calibrateRZero_rzero. reflexivity.
Qed.

(** In IEEE arithmetic both sign tests hold; the run of
    [two_iterations_one_yield] starts above its target, walks down,
    is left when the second measurement is below it, and returns
    [true] with the step subtracted twice. *)
Lemma calibration_direction_fixed_until_crossing_witness :
let adc := steady 1500 1200 in
let m := fresh 34 (flit 7663 2) in
let cal := flit 3590 0 in
let t := flit 20 0 in
let h := flit 33 0 in
let down := SFopp (IEEE.literal 1 1) in
chosen_step (A := ieee) adc MQ135_h cal t h m = down /\
final_it (A := ieee) adc MQ135_h cal t h m = 1 /\
SFleb (fresh_measurement (A := ieee) adc MQ135_h t h down
         (iteration_start (A := ieee) adc MQ135_h t h down 1
            (snd (getCorrectedPPM (A := ieee) adc MQ135_h t h m)))) cal = true /\
fst (calibrateRZero (A := ieee) adc MQ135_h cal t h m) = true /\
_rzero (self (snd (calibrateRZero (A := ieee) adc MQ135_h cal t h m))) =
  bump (A := ieee) down (bump (A := ieee) down (flit 7663 2)).
Proof.
  intros adc m cal t h down.
  assert (E : final_it (A := ieee) adc MQ135_h cal t h m = 1)
    by (vm_compute; reflexivity).
  assert (G : fgt (Arith := ieee)
                (fst (getCorrectedPPM (A := ieee) adc MQ135_h t h m)) cal = true)
    by (vm_compute; reflexivity).
  destruct (@calibration_direction_fixed_until_crossing ieee adc MQ135_h cal t h m eq_refl eq_refl)
    as (S & _ & _ & _ & B & F & _ & Z).
  rewrite G in S, B, Z. rewrite E in B, F, Z.
  split; [exact S|]. split; [exact E|]. split; [apply B; lia|].
  split; [exact F | exact Z].
Defined.

(* ================================================================== *)
(** * No rollback (C4) *)
(* ================================================================== *)

(** C4, as the code has it.  Whatever the outcome, [_rzero] ends as the
    value before the call with the step added to it, in the arithmetic
    of the code, once per iteration entered: at least once, and at least
    1001 times when the call fails.  Nothing else writes the field, so a
    failed call leaves the last value of the search in place.  In exact
    arithmetic that value is [n] steps of 0.1 away from the one before
    the call -- hence different from it -- and no value visited on the
    way is further away. *)
Theorem calibrateRZero_never_rolls_back :
  (forall (A : Arith) (adc : nat -> Z -> Z) (H : header A) (cal_ppm t h : flt)
          (m : machine A),
     let n := iterations_entered adc H cal_ppm t h m in
     let step := chosen_step adc H cal_ppm t h m in
     1 <= n <= 10000 /\
     (fst (calibrateRZero adc H cal_ppm t h m) = false -> 1001 <= n) /\
     _rzero (self (snd (calibrateRZero adc H cal_ppm t h m))) =
       Nat.iter (Z.to_nat n) (bump step) (_rzero (self m)) /\
     _pin (self (snd (calibrateRZero adc H cal_ppm t h m))) = _pin (self m)) /\
  (forall (adc : nat -> Z -> Z) (H : header exact) (cal_ppm t h : R)
          (m : machine exact),
     let n := iterations_entered (A := exact) adc H cal_ppm t h m in
     let step := chosen_step (A := exact) adc H cal_ppm t h m in
     let before := _rzero (self m) in
     let after :=
       _rzero (self (snd (calibrateRZero (A := exact) adc H cal_ppm t h m))) in
     (step = (1 / 10)%R \/ step = (- (1 / 10))%R) /\
     after = (before + IZR n * step)%R /\
     after <> before /\
     (forall k : nat, Z.of_nat k <= n ->
        (Rabs (Nat.iter k (bump (A := exact) step) before - before)
         <= Rabs (after - before))%R)).
Proof.
  split.
  - intros A adc H cal_ppm t h m n step.
    destruct (iterations_entered_range adc H cal_ppm t h m) as [R F].
    split; [exact R|]. split; [exact F|]. split.
    + apply calibrateRZero_rzero.
    + rewrite calibrateRZero_self. apply after_loop_pin.
  - intros adc H cal_ppm t h m n step before after.
    destruct (iterations_entered_range (A := exact) adc H cal_ppm t h m) as [R _].
    fold n in R.
    destruct (exact_calibrateRZero_rzero adc H cal_ppm t h m) as [E D].
    fold n step before after in E, D.
    split; [apply exact_step_cases|]. split; [exact E|]. split; [exact D|].
    intros k Hk. rewrite E, exact_iter_bump.
    assert (K : (0 <= IZR (Z.of_nat k) <= IZR n)%R)
      by (split; apply IZR_le; lia).
    replace (before + IZR (Z.of_nat k) * step - before)%R
      with (IZR (Z.of_nat k) * step)%R by ring.
    replace (before + IZR n * step - before)%R with (IZR n * step)%R by ring.
    rewrite !Rabs_mult, !(Rabs_pos_eq (IZR _)) by lra.
    apply Rmult_le_compat_r; [apply Rabs_pos | lra].
Qed.

(** The failed calibration of a disconnected sensor: all 10000
    iterations are entered. *)
Lemma calibrateRZero_never_rolls_back_witness :
  let adc := steady 0 0 in
  let m := fresh 34 (flit 7663 2) in
  fst (calibrateRZero (A := ieee) adc MQ135_h (flit 400 0) (flit 20 0)
         (flit 33 0) m) = false /\
  1001 <= iterations_entered (A := ieee) adc MQ135_h (flit 400 0) (flit 20 0)
            (flit 33 0) m.
Proof.
  cbv zeta.
  assert (F : fst (calibrateRZero (A := ieee) (steady 0 0) MQ135_h (flit 400 0)
                     (flit 20 0) (flit 33 0) (fresh 34 (flit 7663 2))) = false).
  { rewrite (calibrateRZero_flag (A := ieee)).
    destruct (disconnected_exhausts (flit 400 0) (flit 20 0) (flit 33 0)
                (fresh 34 (flit 7663 2))) as [E _].
    rewrite E. reflexivity. }
  split; [exact F|].
  apply (proj1 calibrateRZero_never_rolls_back ieee (steady 0 0) MQ135_h
           (flit 400 0) (flit 20 0) (flit 33 0) (fresh 34 (flit 7663 2))).
  exact F.
Defined.

(** A call does not always change the stored value.  With
    [_rzero = 2^21] the sum [_rzero + 0.1] rounds back to [2^21] in
    binary32; a disconnected sensor makes the call fail after 10000 such
    additions, and [_rzero] is what it was before the call. *)
Lemma failed_calibration_can_leave_rzero_unchanged :
  let adc := steady 0 0 in
  let m := fresh 34 two_to_21 in
  let r := calibrateRZero (A := ieee) adc MQ135_h (flit 400 0) (flit 20 0)
             (flit 33 0) m in
  bump (A := ieee) (IEEE.literal 1 1) two_to_21 = two_to_21 /\
  fst r = false /\ _rzero (self (snd r)) = _rzero (self m).
Proof.
  cbv zeta.
  destruct (disconnected_exhausts (flit 400 0) (flit 20 0) (flit 33 0)
              (fresh 34 two_to_21)) as [E S].
  assert (B : bump (A := ieee) (IEEE.literal 1 1) two_to_21 = two_to_21)
    by (vm_compute; reflexivity).
  split; [exact B|]. split.
  - rewrite (calibrateRZero_flag (A := ieee)), E. reflexivity.
  - rewrite (calibrateRZero_rzero (A := ieee)), S.
    apply iter_fixpoint. exact B.
Qed.

(* ================================================================== *)
(** * The power law and its inverse (C5) *)
(* ================================================================== *)




(** On ordinary samples the IEEE round trip lands one unit in the last
    place above [(float) 397.13]. *)
Example recalibration_within_one_ulp :
  ppm_after_recalibration (A := ieee) (steady 1500 1200) MQ135_h
    (fresh 34 (flit 7663 2)) = S754_finite false 13013157 (-15).
Proof. vm_compute. reflexivity. Qed.

(* ================================================================== *)
(** * The corrected resistance (C6) *)
(* ================================================================== *)

(** C6.  From one and the same machine, hence from the same samples,
    [getCorrectedResistance t h] returns the quotient, in [float], of
    what [getResistance] returns by what [getCorrectionFactor t h]
    returns, and does to the machine what [getResistance] does. *)
Theorem getCorrectedResistance_is_quotient
  {A : Arith} (adc : nat -> Z -> Z) (H : header A) (t h : flt) (m : machine A) :
  fst (getCorrectedResistance adc H t h m) =
    fdiv (fst (getResistance adc m)) (fst (getCorrectionFactor H t h m)) /\
  snd (getCorrectedResistance adc H t h m) = snd (getResistance adc m).
Proof. split; reflexivity. Qed.

(* ================================================================== *)
(** * The correction factor (C7) *)
(* ================================================================== *)

(** C7.  In every arithmetic [getCorrectionFactor] returns, for every
    input, the value of [CORA * t * t - CORB * t + CORC - (h - 33.) * CORD]
    computed with the operations of that arithmetic in the order of the
    source, leaves the machine as it found it and does not depend on it.
    In IEEE arithmetic that is the expression evaluated in binary64,
    each operation rounded, and the result rounded to binary32 (an
    infinity when it overflows, see [correction_factor_overflows]);
    read in the reals it is [CORA t^2 - CORB t + CORC - (h - 33) CORD]. *)
Theorem getCorrectionFactor_formula_and_purity :
(forall (A : Arith) (H : header A) (t h : flt) (m m' : machine A),
   fst (getCorrectionFactor H t h m) =
     d2f (CORA H * f2d t * f2d t - CORB H * f2d t + CORC H
          - (f2d h - dlit 33 0) * CORD H)%D /\
   snd (getCorrectionFactor H t h m) = m /\
   fst (getCorrectionFactor H t h m) = fst (getCorrectionFactor H t h m')) /\
(forall (H : header ieee) (t h : IEEE.float) (m : machine ieee),
   fst (getCorrectionFactor (A := ieee) H t h m) =
   IEEE.to_float
     (SFsub IEEE.prec64 IEEE.emax64
        (SFadd IEEE.prec64 IEEE.emax64
           (SFsub IEEE.prec64 IEEE.emax64
              (SFmul IEEE.prec64 IEEE.emax64
                 (SFmul IEEE.prec64 IEEE.emax64 (CORA H) (IEEE.to_double t))
                 (IEEE.to_double t))
              (SFmul IEEE.prec64 IEEE.emax64 (CORB H) (IEEE.to_double t)))
           (CORC H))
        (SFmul IEEE.prec64 IEEE.emax64
           (SFsub IEEE.prec64 IEEE.emax64 (IEEE.to_double h) (IEEE.of_int 33))
           (CORD H)))) /\
(forall (H : header exact) (t h : R) (m : machine exact),
   fst (getCorrectionFactor (A := exact) H t h m) =
   (CORA H * t ^ 2 - CORB H * t + CORC H - (h - 33) * CORD H)%R).
Proof.
  split; [|split].
  - intros. repeat split; reflexivity.
  - intros.
    assert (L : IEEE.literal 33 0 = IEEE.of_int 33) by (vm_compute; reflexivity).
    rewrite <- L. reflexivity.
  - intros. cbn. unfold Exact.literal. cbn. field.
Qed.

(* ================================================================== *)
(** * The resistance (C8) *)
(* ================================================================== *)

(** C8.  [getResistance] reads the sensor channel, then channel 33,
    logs once and changes nothing else; each raw sample is turned into
    [raw * 2.45 / 4095], and the result is
    [3 * Vref * 10.0 / Vsensor - 2]. *)
Theorem getResistance_two_samples_and_formula :
  (forall (A : Arith) (adc : nat -> Z -> Z) (m : machine A),
     let raw := sensor_sample adc m in
     let raw_ref := reference_sample adc m in
     fst (getResistance adc m) = resistance_of raw raw_ref /\
     self (snd (getResistance adc m)) = self m /\
     reads (snd (getResistance adc m)) = S (S (reads m)) /\
     trace (snd (getResistance adc m)) =
       LogResistance (volts raw) (volts raw_ref) (resistance_of raw raw_ref)
       :: AnalogRead 33 raw_ref :: AnalogRead (_pin (self m)) raw :: trace m) /\
  (forall raw raw_ref : Z,
     volts (A := exact) raw = (IZR raw * 2.45 / 4095)%R /\
     resistance_of (A := exact) raw raw_ref =
       (3 * volts (A := exact) raw_ref * 10.0 / volts (A := exact) raw - 2)%R).
Proof.
  split.
  - intros. repeat split; reflexivity.
  - intros. split.
    + cbn. unfold Exact.literal. cbn. lra.
    + assert (E : forall X Y : R,
                (3 / 1 * X * (100 / (10 * 1)) / Y - 2 / 1 =
                 3 * X * 10.0 / Y - 2)%R).
      { intros X Y. replace (3 / 1)%R with 3%R by lra.
        replace (100 / (10 * 1))%R with 10.0%R by lra.
        replace (2 / 1)%R with 2%R by lra. reflexivity. }
      apply E.
Qed.

(* ================================================================== *)
(** * A zero sample (C9) *)
(* ================================================================== *)

(** C9, as the code has it.  When the sensor channel reads 0 the
    division by the zero voltage is carried out: with a 12-bit reference
    sample that is not 0 the result is [+inf]; when the reference sample
    is 0 as well it is 0/0, a NaN.  In both cases the call returns, the
    two reads and the log entry are made as usual, and the object is not
    touched. *)
Theorem getResistance_zero_sensor_sample
  (adc : nat -> Z -> Z) (m : machine ieee) :
  sensor_sample adc m = 0 ->
  reference_sample adc m <= 4095 ->
  fst (getResistance (A := ieee) adc m) =
    (if reference_sample adc m =? 0 then IEEE.nan else IEEE.pinf) /\
  snd (getResistance (A := ieee) adc m) =
    {| self := self m; reads := S (S (reads m));
       trace := LogResistance (A := ieee) (S754_zero false)
                  (volts (A := ieee) (reference_sample adc m))
                  (if reference_sample adc m =? 0 then IEEE.nan else IEEE.pinf)
                :: AnalogRead 33 (reference_sample adc m)
                :: AnalogRead (_pin (self m)) 0 :: trace m |}.
Proof.
  intros Z0 Hr.
  assert (R : resistance_of (A := ieee) 0 (reference_sample adc m) =
              if reference_sample adc m =? 0 then IEEE.nan else IEEE.pinf).
  { destruct (Z.eqb_spec (reference_sample adc m) 0) as [->|N].
    - vm_compute. reflexivity.
    - apply is_pinf_eq.
      assert (B : 0 <= reference_sample adc m < 65536)
        by (unfold reference_sample; apply Z.mod_pos_bound; lia).
      pose proof (@all_below_spec _ _ zero_sensor_sample_12bit
                    (reference_sample adc m) ltac:(lia)) as P.
      cbv beta in P. apply orb_prop in P as [P|P]; [|exact P].
      apply Z.eqb_eq in P. contradiction. }
  rewrite getResistance_run, Z0, R. split; reflexivity.
Qed.

Lemma getResistance_zero_sensor_sample_witness :
  fst (getResistance (A := ieee) (steady 0 1200) (fresh 34 (flit 7663 2)))
  = IEEE.pinf.
Proof.
  apply (getResistance_zero_sensor_sample (steady 0 1200) (fresh 34 (flit 7663 2))).
  - vm_compute. reflexivity.
  - vm_compute. discriminate.
Defined.

(** The result is not always infinite: with both channels at 0 it is a
    NaN. *)
Lemma zero_samples_give_nan :
  let adc := steady 0 0 in
  let m := fresh 34 (flit 7663 2) in
  sensor_sample adc m = 0 /\
  fst (getResistance (A := ieee) adc m) = IEEE.nan /\
  IEEE.is_inf (fst (getResistance (A := ieee) adc m)) = false.
Proof. vm_compute. repeat split; reflexivity. Qed.

(* ================================================================== *)
(** * Update before test (C10) *)
(* ================================================================== *)

(** C10, as the code has it.  The first test of the loop is made on a
    measurement taken after [_rzero += step]: the loop is left with
    [it = 0] exactly when that measurement crosses the target, and
    [_rzero] ends with the step added at least once.  When the
    measurement before the loop does not exceed the target -- in
    particular when it equals it -- the step is [+.1].  In exact
    arithmetic [_rzero] therefore never keeps the value it had before
    the call. *)
Theorem calibrateRZero_updates_before_comparing :
  (forall (A : Arith) (adc : nat -> Z -> Z) (H : header A) (cal_ppm t h : flt)
          (m : machine A),
     let step := chosen_step adc H cal_ppm t h m in
     let entry := loop_entry adc H t h m in
     let first := fresh_measurement adc H t h step entry in
     (fgt (initial_measurement adc H t h m) cal_ppm = false -> step = dlit 1 1) /\
     first = fst (getCorrectedPPM adc H t h
                    (with_rzero (bump step (_rzero (self m))) entry)) /\
     (final_it adc H cal_ppm t h m = 0 <-> crossed step first cal_ppm = true) /\
     exists n : nat,
       _rzero (self (snd (calibrateRZero adc H cal_ppm t h m))) =
       Nat.iter (S n) (bump step) (_rzero (self m))) /\
  (forall (adc : nat -> Z -> Z) (H : header exact) (cal_ppm t h : R)
          (m : machine exact),
     _rzero (self (snd (calibrateRZero (A := exact) adc H cal_ppm t h m)))
       <> _rzero (self m) /\
     (initial_measurement (A := exact) adc H t h m = cal_ppm ->
      chosen_step (A := exact) adc H cal_ppm t h m = (1 / 10)%R /\
      fresh_measurement (A := exact) adc H t h (1 / 10)%R (loop_entry adc H t h m) =
      fst (getCorrectedPPM (A := exact) adc H t h
             (with_rzero (A := exact) (_rzero (self m) + 1 / 10)%R
                (loop_entry adc H t h m))))).
Proof.
  split.
  - intros A adc H cal_ppm t h m step entry first.
    split; [|split; [|split]].
    + intros G. unfold step, chosen_step, choose_step. now rewrite G.
    + reflexivity.
    + apply first_test_decides.
    + destruct (iterations_entered_range adc H cal_ppm t h m) as [R _].
      exists (Z.to_nat (iterations_entered adc H cal_ppm t h m - 1)).
      rewrite calibrateRZero_rzero. fold step. f_equal. lia.
  - intros adc H cal_ppm t h m. split.
    + apply (exact_calibrateRZero_rzero adc H cal_ppm t h m).
    + intros E. split; [now apply exact_matched_target_steps_up|]. reflexivity.
Qed.

(** A target equal to the measurement before the loop, in both readings. *)
Lemma calibrateRZero_updates_before_comparing_witness :
  (let adc := steady 1500 1200 in
   let m := fresh 34 (flit 7663 2) in
   let cal := initial_measurement (A := ieee) adc MQ135_h (flit 20 0) (flit 33 0) m in
   chosen_step (A := ieee) adc MQ135_h cal (flit 20 0) (flit 33 0) m
   = IEEE.literal 1 1) /\
  (let adc := steady 1500 1200 in
   let m := fresh_exact 34 (Exact.literal 7663 2) in
   let cal := initial_measurement (A := exact) adc MQ135_h_exact 20%R 33%R m in
   chosen_step (A := exact) adc MQ135_h_exact cal 20%R 33%R m = (1 / 10)%R).
Proof.
  split; cbv zeta.
  - pose proof (proj1 calibrateRZero_updates_before_comparing ieee
                  (steady 1500 1200) MQ135_h
                  (initial_measurement (A := ieee) (steady 1500 1200) MQ135_h
                     (flit 20 0) (flit 33 0) (fresh 34 (flit 7663 2)))
                  (flit 20 0) (flit 33 0) (fresh 34 (flit 7663 2))) as W.
    cbv zeta in W. destruct W as [W _].
    apply W. vm_compute. reflexivity.
  - pose proof (proj2 calibrateRZero_updates_before_comparing
                  (steady 1500 1200) MQ135_h_exact
                  (initial_measurement (A := exact) (steady 1500 1200)
                     MQ135_h_exact 20%R 33%R
                     (fresh_exact 34 (Exact.literal 7663 2)))
                  20%R 33%R (fresh_exact 34 (Exact.literal 7663 2))) as W.
    destruct W as [_ W]. destruct (W eq_refl) as [S _]. exact S.
Defined.

(** The stored value can stay as it was.  With [_rzero = 2^21], steady
    samples and the target set to the measurement before the loop, the
    step is [+.1], the sum rounds back to [2^21] in binary32, the fresh
    measurement is the same as before and equals the target: the call
    succeeds in its first iteration and [_rzero] has not moved. *)
Lemma matched_target_can_leave_rzero_unchanged :
  let adc := steady 1500 1200 in
  let m := fresh 34 two_to_21 in
  let t := flit 20 0 in
  let h := flit 33 0 in
  let cal := initial_measurement (A := ieee) adc MQ135_h t h m in
  let r := calibrateRZero (A := ieee) adc MQ135_h cal t h m in
  IEEE.is_finite cal = true /\
  chosen_step (A := ieee) adc MQ135_h cal t h m = IEEE.literal 1 1 /\
  final_it (A := ieee) adc MQ135_h cal t h m = 0 /\
  fst r = true /\ _rzero (self (snd r)) = _rzero (self m).
Proof. vm_compute. repeat split; reflexivity. Qed.


(* ================================================================== *)
(** * Further properties: calibration on steady samples (X5, X6, X7) *)
(* ================================================================== *)

Lemma steady_time_independent (v r : Z) : time_independent (steady v r).
Proof. intros n n' pin. reflexivity. Qed.

Section Steady.
Context {A : Arith}.
Variable adc : nat -> Z -> Z.
Variable H : header A.
Variables cal_ppm t h : flt.
Hypothesis steady_adc : time_independent adc.

(** On a time-independent ADC the reading depends on the object only. *)
Lemma getCorrectedPPM_steady (m1 m2 : machine A) :
_pin (self m1) = _pin (self m2) ->
_rzero (self m1) = _rzero (self m2) ->
fst (getCorrectedPPM adc H t h m1) = fst (getCorrectedPPM adc H t h m2).
Proof.
  intros P R.
  change (d2f (PARA H * dpow (f2d (fdiv (fdiv
            (resistance_of (sensor_sample adc m1) (reference_sample adc m1))
            (fst (getCorrectionFactor H t h m1))) (_rzero (self m1)))) (- PARB H))%D =
          d2f (PARA H * dpow (f2d (fdiv (fdiv
            (resistance_of (sensor_sample adc m2) (reference_sample adc m2))
            (fst (getCorrectionFactor H t h m2))) (_rzero (self m2)))) (- PARB H))%D).
  unfold sensor_sample, reference_sample.
  rewrite P, R, (steady_adc (reads m1) (reads m2)),
    (steady_adc (S (reads m1)) (S (reads m2))).
  reflexivity.
Qed.

Lemma initial_measurement_steady (m : machine A) :
initial_measurement adc H t h m = ppm_at adc H t h m (_rzero (self m)).
Proof. apply getCorrectedPPM_steady; reflexivity. Qed.

Lemma fresh_measurement_steady (step : dbl) (m : machine A) (k : nat) :
fresh_measurement adc H t h step
  (iteration_start adc H t h step k (loop_entry adc H t h m)) =
ppm_at adc H t h m (Nat.iter (S k) (bump step) (_rzero (self m))).
Proof.
  apply getCorrectedPPM_steady.
  - change (_pin (self (iteration_start adc H t h step k (loop_entry adc H t h m)))
            = _pin (self m)).
    now rewrite iteration_start_pin.
  - change (bump step (_rzero (self (iteration_start adc H t h step k
                                    (loop_entry adc H t h m)))) =
            Nat.iter (S k) (bump step) (_rzero (self m))).
    now rewrite iteration_start_rzero.
Qed.

Lemma breaks_at_steady (m : machine A) (k : nat) :
breaks_at adc H cal_ppm t h (chosen_step adc H cal_ppm t h m)
          (loop_entry adc H t h m) k =
crossed (chosen_step adc H cal_ppm t h m)
        (ppm_at adc H t h m
           (Nat.iter (S k) (bump (chosen_step adc H cal_ppm t h m))
                     (_rzero (self m))))
        cal_ppm.
Proof.
  unfold breaks_at. now rewrite fresh_measurement_steady.
Qed.

End Steady.

(** X5.  Every iteration samples again: a call of [calibrateRZero] makes
    [2 * (1 + N)] ADC reads, two for the measurement before the loop and
    two for each of the [N] iterations entered. *)
Theorem calibrateRZero_read_count
  {A : Arith} (adc : nat -> Z -> Z) (H : header A) (cal_ppm t h : flt)
  (m : machine A) :
Z.of_nat (reads (snd (calibrateRZero adc H cal_ppm t h m))) =
Z.of_nat (reads m) + 2 * (1 + iterations_entered adc H cal_ppm t h m).
Proof.
  rewrite calibrateRZero_run.
  assert (R : Z.of_nat (reads (after_loop adc H cal_ppm t h m)) =
              Z.of_nat (reads m) + 2 * (1 + iterations_entered adc H cal_ppm t h m)).
  { unfold iterations_entered.
    destruct (calibration_exit adc H cal_ppm t h m)
      as (j & E & L & _ & [(Lt & _ & Ex) | (Eq & Ex)]); rewrite Ex, E.
    - destruct (Z.ltb_spec (Z.of_nat j) 10000); [|lia].
      change (Z.of_nat (S (S (reads (iteration_start adc H t h
                (chosen_step adc H cal_ppm t h m) j (loop_entry adc H t h m))))) =
              Z.of_nat (reads m) + 2 * (1 + (Z.of_nat j + 1))).
      rewrite iteration_start_reads.
      change (reads (loop_entry adc H t h m)) with (S (S (reads m))). lia.
    - destruct (Z.ltb_spec (Z.of_nat j) 10000); [lia|].
      rewrite iteration_start_reads.
      change (reads (loop_entry adc H t h m)) with (S (S (reads m))). lia. }
  destruct (_ <? 1000); exact R.
Qed.

(** X6.  On a time-independent ADC a calibration that leaves the loop
    by [break] stops one step past the target: the reading at the final
    [_rzero] has crossed the target, and, when more than one iteration
    was needed, the reading one step earlier had not.  When the first
    iteration breaks, "one step earlier" is the value before the call,
    whose reading is the measurement that chose the direction. *)
Theorem calibration_brackets_target
  {A : Arith} (adc : nat -> Z -> Z) (H : header A) (cal_ppm t h : flt)
  (m : machine A) :
time_independent adc ->
final_it adc H cal_ppm t h m < 10000 ->
let step := chosen_step adc H cal_ppm t h m in
let k := Z.to_nat (final_it adc H cal_ppm t h m) in
let previous := Nat.iter k (bump step) (_rzero (self m)) in
let final := _rzero (self (snd (calibrateRZero adc H cal_ppm t h m))) in
final = bump step previous /\
crossed step (ppm_at adc H t h m final) cal_ppm = true /\
(0 < final_it adc H cal_ppm t h m ->
 crossed step (ppm_at adc H t h m previous) cal_ppm = false) /\
(final_it adc H cal_ppm t h m = 0 ->
 ppm_at adc H t h m previous = initial_measurement adc H t h m).
Proof.
  intros St Lt step k previous final.
  pose proof (final_it_range adc H cal_ppm t h m) as R.
  assert (F : final = bump step previous).
  { unfold final. rewrite calibrateRZero_rzero. unfold iterations_entered.
    destruct (Z.ltb_spec (final_it adc H cal_ppm t h m) 10000); [|lia].
    replace (Z.to_nat (final_it adc H cal_ppm t h m + 1)) with (S k)
      by (unfold k; lia).
    reflexivity. }
  destruct (calibration_exit adc H cal_ppm t h m) as (j & E & L & NB & D).
  assert (J : j = k) by (unfold k; lia).
  split; [exact F|]. split; [|split].
  - rewrite F. destruct D as [(_ & B & _) | (Eq & _)]; [|lia].
    rewrite (@breaks_at_steady A adc H cal_ppm t h St) in B.
    rewrite J in B. exact B.
  - intros Pos. destruct k as [|k']; [lia|].
    specialize (NB k' ltac:(lia)).
    rewrite (@breaks_at_steady A adc H cal_ppm t h St) in NB.
    exact NB.
  - intros Z0. unfold previous, k. rewrite Z0.
    change (Nat.iter (Z.to_nat 0) (bump step) (_rzero (self m)))
      with (_rzero (self m)).
    symmetry. now apply initial_measurement_steady.
Qed.

(** The run of [two_iterations_one_yield]: left with [it = 1]. *)
Lemma calibration_brackets_target_witness :
let adc := steady 1500 1200 in
let m := fresh 34 (flit 7663 2) in
let cal := flit 3590 0 in
let t := flit 20 0 in
let h := flit 33 0 in
let step := chosen_step (A := ieee) adc MQ135_h cal t h m in
crossed (A := ieee) step
  (ppm_at (A := ieee) adc MQ135_h t h m
     (_rzero (self (snd (calibrateRZero (A := ieee) adc MQ135_h cal t h m)))))
  cal = true.
Proof.
  cbv zeta.
  assert (E : final_it (A := ieee) (steady 1500 1200) MQ135_h (flit 3590 0)
                (flit 20 0) (flit 33 0) (fresh 34 (flit 7663 2)) = 1)
    by (vm_compute; reflexivity).
  pose proof (@calibration_brackets_target ieee (steady 1500 1200) MQ135_h
                (flit 3590 0) (flit 20 0) (flit 33 0) (fresh 34 (flit 7663 2))
                (steady_time_independent 1500 1200)) as W.
  rewrite E in W. specialize (W ltac:(lia)).
  cbv zeta in W. destruct W as (_ & C & _). exact C.
Defined.

(** X7.  On a time-independent ADC, [calibrateRZero] returns [true]
    exactly when one of the first 1000 candidates -- the value of
    [_rzero] before the call with the chosen step added [k] times,
    [1 <= k <= 1000] -- gives a reading that has crossed the target. *)
Theorem calibration_succeeds_iff_early_crossing
  {A : Arith} (adc : nat -> Z -> Z) (H : header A) (cal_ppm t h : flt)
  (m : machine A) :
time_independent adc ->
let step := chosen_step adc H cal_ppm t h m in
fst (calibrateRZero adc H cal_ppm t h m) = true <->
exists k : nat,
  (1 <= k <= 1000)%nat /\
  crossed step (ppm_at adc H t h m (Nat.iter k (bump step) (_rzero (self m))))
          cal_ppm = true.
Proof.
  intros St step. subst step.
  rewrite calibrateRZero_flag.
  destruct (calibration_exit adc H cal_ppm t h m) as (j & E & L & NB & D).
  split.
  - intros Lt. apply Z.ltb_lt in Lt.
    destruct D as [(_ & B & _) | (Eq & _)]; [|lia].
    exists (S j). split; [lia|].
    rewrite (@breaks_at_steady A adc H cal_ppm t h St) in B. exact B.
  - intros (k & Hk & C). apply Z.ltb_lt.
    destruct k as [|k']; [lia|].
    rewrite <- (@breaks_at_steady A adc H cal_ppm t h St) in C.
    destruct (Nat.lt_ge_cases k' j) as [Lt|Ge]; [|lia].
    rewrite (NB k' Lt) in C. discriminate.
Qed.

Lemma calibration_succeeds_iff_early_crossing_witness :
let adc := steady 1500 1200 in
let m := fresh 34 (flit 7663 2) in
let cal := flit 3590 0 in
let step := chosen_step (A := ieee) adc MQ135_h cal (flit 20 0) (flit 33 0) m in
fst (calibrateRZero (A := ieee) adc MQ135_h cal (flit 20 0) (flit 33 0) m) = true <->
exists k : nat,
  (1 <= k <= 1000)%nat /\
  crossed (A := ieee) step
    (ppm_at (A := ieee) adc MQ135_h (flit 20 0) (flit 33 0) m
       (Nat.iter k (bump (A := ieee) step) (_rzero (self m)))) cal = true.
Proof.
  exact (@calibration_succeeds_iff_early_crossing ieee (steady 1500 1200) MQ135_h
           (flit 3590 0) (flit 20 0) (flit 33 0) (fresh 34 (flit 7663 2))
           (steady_time_independent 1500 1200)).
Defined.

(* ================================================================== *)
(** * Further properties: NaN and infinities (X8, X9, X10) *)
(* ================================================================== *)

Lemma crossed_nan_target (step : IEEE.double) (x : IEEE.float) :
crossed (A := ieee) step x IEEE.nan = false.
Proof.
  change (crossed (A := ieee) step x IEEE.nan)
    with (if SFltb step (IEEE.of_int 0) then SFleb x IEEE.nan
          else SFleb IEEE.nan x).
  destruct (SFltb step (IEEE.of_int 0)); [|reflexivity].
  destruct x; reflexivity.
Qed.

(** X8.  A NaN target is never met.  Whatever the samples, the constants
    and the state of the object, [calibrateRZero] called with a NaN
    target chooses the step [+.1], runs all 10000 iterations, yields 334
    times and returns [false]. *)
Theorem nan_target_is_never_met
  (adc : nat -> Z -> Z) (H : header ieee) (t h : IEEE.float) (m : machine ieee) :
chosen_step (A := ieee) adc H IEEE.nan t h m = IEEE.literal 1 1 /\
final_it (A := ieee) adc H IEEE.nan t h m = 10000 /\
fst (calibrateRZero (A := ieee) adc H IEEE.nan t h m) = false /\
delays (trace (snd (calibrateRZero (A := ieee) adc H IEEE.nan t h m))) =
  delays (trace m) + 334.
Proof.
  assert (E : final_it (A := ieee) adc H IEEE.nan t h m = 10000).
  { apply never_crossed_final_it. intros i. apply crossed_nan_target. }
  split; [reflexivity|]. split; [exact E|]. split.
  - rewrite (calibrateRZero_flag (A := ieee)), E. reflexivity.
  - rewrite (calibrateRZero_yields (A := ieee)), E. reflexivity.
Qed.

Section Disconnected.
Variable adc : nat -> Z -> Z.
Variable H : header ieee.
Hypothesis no_signal : disconnected adc.
Hypothesis exponent : is_zero (PARB H) = false.

Lemma disconnected_getResistance (m : machine ieee) :
fst (getResistance (A := ieee) adc m) = IEEE.nan.
Proof.
  rewrite getResistance_run. cbn [fst].
  unfold sensor_sample, reference_sample. rewrite !no_signal.
  vm_compute. reflexivity.
Qed.

Lemma negated_exponent : is_zero (SFopp (PARB H)) = false.
Proof. destruct (PARB H); [discriminate | reflexivity..]. Qed.

Lemma disconnected_getPPM (m : machine ieee) :
fst (getPPM (A := ieee) adc H m) = IEEE.nan.
Proof.
  change (fst (getPPM (A := ieee) adc H m))
    with (IEEE.to_float
            (SFmul IEEE.prec64 IEEE.emax64 (PARA H)
               (Libm.pow
                  (IEEE.to_double
                     (SFdiv IEEE.prec32 IEEE.emax32
                        (fst (getResistance (A := ieee) adc m))
                        (_rzero (self m))))
                  (SFopp (PARB H))))).
  rewrite disconnected_getResistance.
  change (IEEE.to_double (SFdiv IEEE.prec32 IEEE.emax32 IEEE.nan (_rzero (self m))))
    with IEEE.nan.
  rewrite pow_nan by apply negated_exponent.
  apply to_float_nan_product.
Qed.

Lemma disconnected_getCorrectedPPM (t h : IEEE.float) (m : machine ieee) :
fst (getCorrectedPPM (A := ieee) adc H t h m) = IEEE.nan.
Proof.
  change (fst (getCorrectedPPM (A := ieee) adc H t h m))
    with (IEEE.to_float
            (SFmul IEEE.prec64 IEEE.emax64 (PARA H)
               (Libm.pow
                  (IEEE.to_double
                     (SFdiv IEEE.prec32 IEEE.emax32
                        (SFdiv IEEE.prec32 IEEE.emax32
                           (fst (getResistance (A := ieee) adc m))
                           (fst (getCorrectionFactor (A := ieee) H t h m)))
                        (_rzero (self m))))
                  (SFopp (PARB H))))).
  rewrite disconnected_getResistance.
  change (IEEE.to_double
            (SFdiv IEEE.prec32 IEEE.emax32
               (SFdiv IEEE.prec32 IEEE.emax32 IEEE.nan
                  (fst (getCorrectionFactor (A := ieee) H t h m)))
               (_rzero (self m))))
    with IEEE.nan.
  rewrite pow_nan by apply negated_exponent.
  apply to_float_nan_product.
Qed.

End Disconnected.

(** X9.  With an ADC that returns 0 on every read and a [PARB] that is
    not zero, whatever the other constants and the state of the object:
    [getResistance] returns NaN (0/0), [getPPM] and [getCorrectedPPM]
    return NaN, and [calibrateRZero] runs all 10000 iterations and
    returns [false], for every target. *)
Theorem disconnected_sensor_measures_nan
  (adc : nat -> Z -> Z) (H : header ieee) (cal t h : IEEE.float)
  (m : machine ieee) :
disconnected adc ->
is_zero (PARB H) = false ->
fst (getResistance (A := ieee) adc m) = IEEE.nan /\
fst (getPPM (A := ieee) adc H m) = IEEE.nan /\
fst (getCorrectedPPM (A := ieee) adc H t h m) = IEEE.nan /\
final_it (A := ieee) adc H cal t h m = 10000 /\
fst (calibrateRZero (A := ieee) adc H cal t h m) = false.
Proof.
  intros D E.
  assert (F : final_it (A := ieee) adc H cal t h m = 10000).
  { apply never_crossed_final_it. intros i.
    unfold breaks_at, fresh_measurement.
    rewrite (@disconnected_getCorrectedPPM adc H D E). apply crossed_nan. }
  split; [now apply (@disconnected_getResistance adc)|].
  split; [now apply (@disconnected_getPPM adc H)|].
  split; [now apply (@disconnected_getCorrectedPPM adc H)|].
  split; [exact F|].
  rewrite (calibrateRZero_flag (A := ieee)), F. reflexivity.
Qed.

Lemma disconnected_sensor_measures_nan_witness :
fst (getPPM (A := ieee) (steady 0 0) MQ135_h (fresh 34 (flit 7663 2))) = IEEE.nan /\
fst (calibrateRZero (A := ieee) (steady 0 0) MQ135_h (flit 400 0) (flit 20 0)
       (flit 33 0) (fresh 34 (flit 7663 2))) = false.
Proof.
  assert (D : disconnected (steady 0 0)).
  { intros n pin. unfold steady. destruct (pin =? 33); reflexivity. }
  assert (E : is_zero (PARB MQ135_h) = false) by (vm_compute; reflexivity).
  destruct (@disconnected_sensor_measures_nan (steady 0 0) MQ135_h (flit 400 0)
              (flit 20 0) (flit 33 0) (fresh 34 (flit 7663 2)) D E)
    as (_ & P & _ & _ & F).
  split; [exact P | exact F].
Defined.

Lemma bump_nonfinite (r : IEEE.float) :
IEEE.is_finite r = false ->
bump (A := ieee) (IEEE.literal 1 1) r = r /\
bump (A := ieee) (SFopp (IEEE.literal 1 1)) r = r.
Proof.
  destruct r as [s | [|] | | s mm e]; try discriminate; intros _;
    split; vm_compute; reflexivity.
Qed.

(** X10.  Calibration cannot repair a [_rzero] that is NaN or infinite:
    adding [+.1] or [-.1] leaves such a value as it is, so after
    [calibrateRZero], whatever its arguments and outcome, [_rzero] is
    still that value. *)
Theorem calibration_keeps_nonfinite_rzero
  (adc : nat -> Z -> Z) (H : header ieee) (cal t h : IEEE.float)
  (m : machine ieee) :
IEEE.is_finite (_rzero (self m)) = false ->
_rzero (self (snd (calibrateRZero (A := ieee) adc H cal t h m))) =
_rzero (self m).
Proof.
  intros N. rewrite (calibrateRZero_rzero (A := ieee)).
  apply iter_fixpoint.
  destruct (@bump_nonfinite _ N) as [Up Down].
  unfold chosen_step, choose_step.
  destruct (fgt _ _); [exact Down | exact Up].
Qed.

Lemma calibration_keeps_nonfinite_rzero_witness :
_rzero (self (snd (calibrateRZero (A := ieee) (steady 1500 1200) MQ135_h
                     (flit 400 0) (flit 20 0) (flit 33 0)
                     (fresh 34 IEEE.nan)))) = IEEE.nan.
Proof.
  apply (@calibration_keeps_nonfinite_rzero (steady 1500 1200) MQ135_h
           (flit 400 0) (flit 20 0) (flit 33 0) (fresh 34 IEEE.nan)).
  reflexivity.
Defined.
